(** * Amazon Books dashboard: the filter-and-aggregate pipeline

    A shallow embedding of [streamlit_app/app.py].  The script loads one
    table, derives a filtered view from the sidebar selections and feeds
    that view to a handful of pandas aggregations whose results are handed
    to streamlit.

    Modelling choices.
    - A [DataFrame] is the list of its column labels together with its rows
      in index order.  A row is a [Book] record; reading a column whose
      label is not in [columns] raises [KeyError], as [df[c]] does.
    - A string cell is [option string]; [None] is the missing value (NaN).
    - A numeric cell is [option Q]: a finite value or NaN.  Comparisons
      of finite floats are exact, so [>=] and [<=] are modelled without
      loss; sums and quotients are the exact ones and the square root
      is a parameter, rounding is outside the model.  The properties
      below therefore say of a mean, a deviation or a coefficient which
      cells it is taken over and whether it is a number or NaN, never
      that it lies on one side of another number.
    - pandas leaves sorting to numpy's [argsort].  The sort is a parameter
      [argsort] of the aggregations; theorems assume of it that it returns
      its input reordered by ascending key and, where the order of equal
      keys matters, that it keeps equal keys in the order of its input.
    - streamlit calls are recorded as the list of elements they emit when
      the code runs to its end; a run that raises is recorded by its
      exception alone, without what was shown before it. *)

From Stdlib Require Import List String Ascii Bool Arith ZArith QArith Qround Lia Lqa.
From Stdlib Require Import Sorting.Sorted Sorting.Permutation.
Import ListNotations.
Open Scope string_scope.
Open Scope list_scope.
Open Scope Q_scope.

(** ** Exceptions *)

Inductive result (A : Type) : Type :=
| Ok (a : A)
| KeyError (label : string)
| ValueError (variable : string)
| StreamlitAPIException.
Arguments Ok {A} a.
Arguments KeyError {A} label.
Arguments ValueError {A} variable.
Arguments StreamlitAPIException {A}.

Definition bind {A B : Type} (r : result A) (k : A -> result B) : result B :=
  match r with
  | Ok a => k a
  | KeyError c => KeyError c
  | ValueError v => ValueError v
  | StreamlitAPIException => StreamlitAPIException
  end.

Notation "x <- r ;; k" := (bind r (fun x => k))
  (at level 61, r at next level, right associativity).

(** ** Data model *)

Record Book : Type := {
  Type_ : option string;
  Main_Genre : option string;
  Author : option string;
  Rating : option Q;
  No_of_People_rated : option Q;
  Price : option Q;
  Price_outlier : bool
}.

Definition Series (A : Type) : Type := list A.

(** The field of a row whose label is not among [columns] is never read. *)

Record DataFrame : Type := {
  columns : list string;
  rows : list Book
}.

(** [c in df.columns] *)
Definition has_column (df : DataFrame) (c : string) : bool :=
  existsb (String.eqb c) (columns df).

Definition str_field (c : string) : option (Book -> option string) :=
  if c =? "Type" then Some Type_
  else if c =? "Main Genre" then Some Main_Genre
  else if c =? "Author" then Some Author
  else None.

Definition float_field (c : string) : option (Book -> option Q) :=
  if c =? "Price" then Some Price
  else if c =? "Rating" then Some Rating
  else if c =? "No. of People rated" then Some No_of_People_rated
  else None.

Definition bool_field (c : string) : option (Book -> bool) :=
  if c =? "Price_outlier" then Some Price_outlier else None.

(** [df[c]], by the dtype of the column.  The script reads every column
    at its own dtype; a label that names no column of the dtype asked for
    is treated like an absent one. *)
Definition getitem {A : Type} (field : string -> option (Book -> A))
    (df : DataFrame) (c : string) : result (Series A) :=
  if has_column df c then
    match field c with
    | Some f => Ok (map f (rows df))
    | None => KeyError c
    end
  else KeyError c.

Definition getitem_str := getitem str_field.
Definition getitem_float := getitem float_field.
Definition getitem_bool := getitem bool_field.

(** A column handed to seaborn by name ([data=df, x=c]): seaborn raises
    [ValueError] for a name that is no column of [data]. *)
Definition variable (df : DataFrame) (c : string) : result (Series (option Q)) :=
  if has_column df c then
    match float_field c with
    | Some f => Ok (map f (rows df))
    | None => ValueError c
    end
  else ValueError c.

(** [df.copy()] *)
Definition copy (df : DataFrame) : DataFrame :=
  {| columns := columns df; rows := rows df |}.

(** [df.empty] *)
Definition empty (df : DataFrame) : bool :=
  match rows df with
  | [] => true
  | _ :: _ => false
  end.

(** ** Element-wise Series operations *)

(** [s.isin(values)]; the selectable values come from [dropna().unique()],
    so [values] holds strings only and a missing cell matches none. *)
Definition isin (s : Series (option string)) (values : list string) : Series bool :=
  map (fun x => match x with
                | Some v => existsb (String.eqb v) values
                | None => false
                end) s.

(** [s >= lo] and [s <= hi]; any comparison with NaN is False *)
Definition series_ge (s : Series (option Q)) (lo : Q) : Series bool :=
  map (fun x => match x with
                | Some v => Qle_bool lo v
                | None => false
                end) s.

Definition series_le (s : Series (option Q)) (hi : Q) : Series bool :=
  map (fun x => match x with
                | Some v => Qle_bool v hi
                | None => false
                end) s.

(** [m1 & m2] *)
Fixpoint band (m1 m2 : Series bool) : Series bool :=
  match m1, m2 with
  | b1 :: m1', b2 :: m2' => (b1 && b2) :: band m1' m2'
  | _, _ => []
  end.

(** [~m] *)
Definition inv (m : Series bool) : Series bool := map negb m.

(** Boolean indexing on a list of rows *)
Fixpoint select {A : Type} (l : list A) (mask : Series bool) : list A :=
  match l, mask with
  | x :: l', b :: mask' => if b then x :: select l' mask' else select l' mask'
  | _, _ => []
  end.

(** [df[mask]] *)
Definition loc (df : DataFrame) (mask : Series bool) : DataFrame :=
  {| columns := columns df; rows := select (rows df) mask |}.

(** ** Sidebar and filter pipeline (app.py, lines 62-79) *)

(** Lines 63-66, [exclude_outliers]: the checkbox is only offered when
    the column exists. *)
Definition sidebar_exclude_outliers (df : DataFrame) (checkbox : bool) : bool :=
  if has_column df "Price_outlier" then checkbox else false.

(** Lines 69-79, "Apply filters": the value of [filtered_df] at line 81. *)
Definition apply_filters (df : DataFrame) (selected_types selected_genres : list string)
    (rating_range : Q * Q) (exclude_outliers : bool) : result DataFrame :=
  let filtered_df := copy df in
  type_s <- getitem_str filtered_df "Type" ;;
  genre_s <- getitem_str filtered_df "Main Genre" ;;
  rating_lo <- getitem_float filtered_df "Rating" ;;
  rating_hi <- getitem_float filtered_df "Rating" ;;
  let mask :=
    band (band (band (isin type_s selected_types)
                     (isin genre_s selected_genres))
               (series_ge rating_lo (fst rating_range)))
         (series_le rating_hi (snd rating_range)) in
  let filtered_df := loc filtered_df mask in
  if exclude_outliers && has_column df "Price_outlier" then
    outlier <- getitem_bool filtered_df "Price_outlier" ;;
    Ok (loc filtered_df (inv outlier))
  else Ok filtered_df.

(** The filter as the specification words it: a conjunction of predicates
    on one row. *)
Definition in_selection (x : option string) (values : list string) : bool :=
  match x with
  | Some v => existsb (String.eqb v) values
  | None => false
  end.

Definition in_range (x : option Q) (lo hi : Q) : bool :=
  match x with
  | Some v => Qle_bool lo v && Qle_bool v hi
  | None => false
  end.

Definition spec_base (selected_types selected_genres : list string)
    (rating_range : Q * Q) (b : Book) : bool :=
  in_selection (Type_ b) selected_types
  && in_selection (Main_Genre b) selected_genres
  && in_range (Rating b) (fst rating_range) (snd rating_range).

Definition spec_keep (outlier_column : bool) (selected_types selected_genres : list string)
    (rating_range : Q * Q) (exclude_outliers : bool) (b : Book) : bool :=
  spec_base selected_types selected_genres rating_range b
  && (if exclude_outliers && outlier_column then negb (Price_outlier b) else true).

Definition required_columns (df : DataFrame) : bool :=
  has_column df "Type" && has_column df "Main Genre" && has_column df "Rating".

(** ** Sorting

    [sort_values(ascending=False)] splits the missing keys off, reverses
    the rest, sorts it ascending with numpy's [argsort] of the chosen kind,
    reverses the outcome and puts the missing keys last. *)

Definition key_or_zero {A : Type} (key : A -> option Q) (a : A) : Q :=
  match key a with
  | Some q => q
  | None => 0
  end.

Definition notna {A : Type} (x : option A) : bool :=
  match x with
  | Some _ => true
  | None => false
  end.

Definition isna {A : Type} (x : option A) : bool := negb (notna x).

Definition sort_values_desc (argsort : forall A : Type, (A -> Q) -> list A -> list A)
    {A : Type} (key : A -> option Q) (l : list A) : list A :=
  let non_nans := filter (fun a => notna (key a)) l in
  let nans := filter (fun a => isna (key a)) l in
  rev (argsort A (key_or_zero key) (rev non_nans)) ++ nans.

(** A sort that meets the contract of [argsort] and keeps equal keys in
    input order *)
Fixpoint insert_before {A : Type} (key : A -> Q) (x : A) (l : list A) : list A :=
  match l with
  | [] => [x]
  | y :: l' =>
      if Qle_bool (key x) (key y) then x :: l else y :: insert_before key x l'
  end.

Definition stable_argsort (A : Type) (key : A -> Q) (l : list A) : list A :=
  fold_right (insert_before key) [] l.

(** ** Reductions that skip missing values *)

Fixpoint dropna {A : Type} (s : Series (option A)) : list A :=
  match s with
  | [] => []
  | Some v :: s' => v :: dropna s'
  | None :: s' => dropna s'
  end.

Definition Qsum (l : list Q) : Q := fold_left Qplus l 0.

Definition Qlen {A : Type} (l : list A) : Q := inject_Z (Z.of_nat (List.length l)).

(** [s.count()] *)
Definition count (s : Series (option Q)) : nat := List.length (dropna s).

(** [s.mean()]: NaN when nothing is left to average *)
Definition mean (s : Series (option Q)) : option Q :=
  match dropna s with
  | [] => None
  | vs => Some (Qsum vs / Qlen vs)
  end.

(** ** [groupby(col, as_index=False)[value_col].mean()] *)

(** Distinct values in order of first appearance *)
Fixpoint unique (l : list string) : list string :=
  match l with
  | [] => []
  | x :: l' => x :: filter (fun y => negb (y =? x)) (unique l')
  end.

Fixpoint insert_key (k : string) (l : list string) : list string :=
  match l with
  | [] => [k]
  | k' :: l' => if (k <=? k')%string then k :: l else k' :: insert_key k l'
  end.

(** [sort=True]: group keys in ascending order *)
Definition sort_keys (l : list string) : list string :=
  fold_right insert_key [] l.

(** Lines 37 and 45, [types] and [genres]: [df[c].dropna().unique()], the
    values the two multiselects offer; lines 40-41 and 48-49 sort them. *)
Definition selectable (df : DataFrame) (c : string) : result (list string) :=
  s <- getitem_str df c ;;
  Ok (sort_keys (unique (dropna s))).

Definition is_label (k : string) (x : option string) : bool :=
  match x with
  | Some v => v =? k
  | None => false
  end.

(** The cells of the value column on the rows labelled [k] *)
Definition group_values (k : string) (labels : Series (option string))
    (values : Series (option Q)) : Series (option Q) :=
  select values (map (is_label k) labels).

Definition groupby_mean (df : DataFrame) (col value_col : string)
    : result (list (string * option Q)) :=
  labels <- getitem_str df col ;;
  values <- getitem_float df value_col ;;
  let keys := sort_keys (unique (dropna labels)) in
  Ok (map (fun k => (k, mean (group_values k labels values))) keys).

(** Lines 126-130 and 221-225:
    [groupby(col).mean().sort_values(value_col, ascending=False)] *)
Definition mean_by_group (argsort : forall A : Type, (A -> Q) -> list A -> list A)
    (df : DataFrame) (col value_col : string) : result (list (string * option Q)) :=
  means <- groupby_mean df col value_col ;;
  Ok (sort_values_desc argsort snd means).

(** ** [value_counts().head(n)] *)

(** One more occurrence of [k] in the table of counts; a new key goes to
    the end, so keys stay in order of first appearance. *)
Fixpoint incr (k : string) (table : list (string * nat)) : list (string * nat) :=
  match table with
  | [] => [(k, 1%nat)]
  | (k', n) :: t => if k =? k' then (k', S n) :: t else (k', n) :: incr k t
  end.

(** Missing cells are not counted ([dropna=True]). *)
Definition tally (t : list (string * nat)) (x : option string) : list (string * nat) :=
  match x with
  | Some k => incr k t
  | None => t
  end.

Definition count_table (s : Series (option string)) : list (string * nat) :=
  fold_left tally s [].

Definition count_key (e : string * nat) : option Q :=
  Some (inject_Z (Z.of_nat (snd e))).

Definition value_counts (argsort : forall A : Type, (A -> Q) -> list A -> list A)
    (s : Series (option string)) : list (string * nat) :=
  sort_values_desc argsort count_key (count_table s).

Definition head {A : Type} (n : nat) (l : list A) : list A := firstn n l.

(** Lines 195-199 *)
Definition top_value_counts (argsort : forall A : Type, (A -> Q) -> list A -> list A)
    (df : DataFrame) (col : string) (n : nat) : result (list (string * nat)) :=
  s <- getitem_str df col ;;
  Ok (head n (value_counts argsort s)).

(** ** [describe()] of a numeric Series *)

Record Describe : Type := {
  d_count : nat;
  d_mean : option Q;
  d_std : option Q;
  d_min : option Q;
  d_25 : option Q;
  d_50 : option Q;
  d_75 : option Q;
  d_max : option Q
}.

Definition sum_sq_dev (vs : list Q) (m : Q) : Q :=
  Qsum (map (fun v => (v - m) * (v - m)) vs).

(** [s.std()], with [ddof=1] *)
Definition std (sqrt : Q -> Q) (s : Series (option Q)) : option Q :=
  let vs := dropna s in
  if (List.length vs <=? 1)%nat then None
  else Some (sqrt (sum_sq_dev vs (Qsum vs / Qlen vs) / (Qlen vs - 1))).

Definition min (s : Series (option Q)) : option Q :=
  match dropna s with
  | [] => None
  | v :: vs => Some (fold_left (fun m x => if Qle_bool x m then x else m) vs v)
  end.

Definition max (s : Series (option Q)) : option Q :=
  match dropna s with
  | [] => None
  | v :: vs => Some (fold_left (fun m x => if Qle_bool m x then x else m) vs v)
  end.

(** [s.quantile(q)], linear interpolation between the two nearest ranks *)
Definition quantile (argsort : forall A : Type, (A -> Q) -> list A -> list A)
    (s : Series (option Q)) (q : Q) : option Q :=
  match argsort Q (fun v => v) (dropna s) with
  | [] => None
  | (v0 :: _) as vs =>
      let pos := q * (Qlen vs - 1) in
      let lo := Z.to_nat (Qfloor pos) in
      let a := nth lo vs v0 in
      let b := nth (S lo) vs a in
      Some (a + (b - a) * (pos - inject_Z (Qfloor pos)))
  end.

Definition describe (argsort : forall A : Type, (A -> Q) -> list A -> list A)
    (sqrt : Q -> Q) (s : Series (option Q)) : Describe :=
  {| d_count := count s;
     d_mean := mean s;
     d_std := std sqrt s;
     d_min := min s;
     d_25 := quantile argsort s (1 # 4);
     d_50 := quantile argsort s (1 # 2);
     d_75 := quantile argsort s (3 # 4);
     d_max := max s |}.

(** ** [df[cols].corr()] *)

Record CorrMatrix : Type := {
  labels : list string;
  entries : list (list (option Q))
}.

(** The observations on which both columns hold a value *)
Fixpoint complete_pairs (xs ys : Series (option Q)) : list (Q * Q) :=
  match xs, ys with
  | Some x :: xs', Some y :: ys' => (x, y) :: complete_pairs xs' ys'
  | _ :: xs', _ :: ys' => complete_pairs xs' ys'
  | _, _ => []
  end.

(** Pearson's coefficient with [min_periods=1]: NaN without observations
    and NaN when the divisor is zero. *)
Definition pearson (sqrt : Q -> Q) (xs ys : Series (option Q)) : option Q :=
  let obs := complete_pairs xs ys in
  if (List.length obs <? 1)%nat then None
  else
    let mx := Qsum (map fst obs) / Qlen obs in
    let my := Qsum (map snd obs) / Qlen obs in
    let ssx := Qsum (map (fun p => (fst p - mx) * (fst p - mx)) obs) in
    let ssy := Qsum (map (fun p => (snd p - my) * (snd p - my)) obs) in
    let cov := Qsum (map (fun p => (fst p - mx) * (snd p - my)) obs) in
    let divisor := sqrt (ssx * ssy) in
    if Qeq_bool divisor 0 then None else Some (cov / divisor).

(** [df[cols]] *)
Fixpoint getitems (df : DataFrame) (cols : list string)
    : result (list (Series (option Q))) :=
  match cols with
  | [] => Ok []
  | c :: cols' =>
      s <- getitem_float df c ;;
      rest <- getitems df cols' ;;
      Ok (s :: rest)
  end.

(** Each unordered pair of columns is computed once and stored at both
    positions. *)
Definition corr_entry (sqrt : Q -> Q) (data : list (Series (option Q)))
    (i j : nat) : option Q :=
  if (j <=? i)%nat then pearson sqrt (nth i data []) (nth j data [])
  else pearson sqrt (nth j data []) (nth i data []).

Definition corr (sqrt : Q -> Q) (df : DataFrame) (cols : list string)
    : result CorrMatrix :=
  data <- getitems df cols ;;
  let K := List.length cols in
  Ok {| labels := cols;
        entries := map (fun i => map (corr_entry sqrt data i) (seq 0 K)) (seq 0 K) |}.

(** A square root on the rationals: exact on squares, rounded down on the
    numerator otherwise. *)
Definition Qsqrt (q : Q) : Q :=
  Z.sqrt (Qnum q * Zpos (Qden q)) # Qden q.

(** ** What streamlit is asked to show *)

Inductive figure : Type :=
| histplot (data : Series (option Q)) (bins : nat)
| barplot_means (data : list (string * option Q))
| barplot_counts (data : list (string * nat))
| scatterplot (x y : Series (option Q))
| heatmap (m : CorrMatrix).

Inductive element : Type :=
| subheader (body : string)
| markdown (body : string)
| write (body : string)
| write_shape (shape : nat * nat)
| write_columns (cols : list string)
| write_describe (d : Describe)
| dataframe_rows (data : list Book)
| dataframe_means (data : list (string * option Q))
| dataframe_counts (name : string) (data : list (string * nat))
| dataframe_corr (m : CorrMatrix)
| pyplot (fig : figure)
| info (body : string).

Definition no_data : string := "No data available with the current filters.".

Definition not_enough_columns : string :=
  "Not enough numeric columns to compute correlations.".

Definition numeric_cols : list string := ["Price"; "Rating"; "No. of People rated"].

Section Tabs.

Variable argsort : forall A : Type, (A -> Q) -> list A -> list A.
Variable sqrt : Q -> Q.

(** Lines 93-107 *)
Definition tab_overview (filtered_df : DataFrame) : result (list element) :=
  let top := [ subheader "Dataset Overview";
               write_shape (List.length (rows filtered_df),
                            List.length (columns filtered_df));
               write_columns (columns filtered_df);
               write "**Sample rows:**";
               dataframe_rows (head 10 (rows filtered_df));
               markdown "---";
               subheader "Price – Summary Statistics" ] in
  price <- getitem_float filtered_df "Price" ;;
  Ok (top ++ [ write_describe (describe argsort sqrt price) ]).

(** Lines 112-141 *)
Definition tab_price (filtered_df : DataFrame) : result (list element) :=
  price <- getitem_float filtered_df "Price" ;;
  let top := [ subheader "💰 Price Distribution ";
               pyplot (histplot price 30);
               markdown "---";
               subheader "Average Price by Type " ] in
  if negb (empty filtered_df) then
    avg_price_type <- mean_by_group argsort filtered_df "Type" "Price" ;;
    Ok (top ++ [ pyplot (barplot_means avg_price_type);
                 write "**Average price by Type (table):**";
                 dataframe_means avg_price_type ])
  else Ok (top ++ [ info no_data ]).

(** Lines 146-186 *)
Definition tab_rating (filtered_df : DataFrame) : result (list element) :=
  rating <- getitem_float filtered_df "Rating" ;;
  x_rating <- variable filtered_df "Rating" ;;
  y_price <- variable filtered_df "Price" ;;
  x_people <- variable filtered_df "No. of People rated" ;;
  y_price' <- variable filtered_df "Price" ;;
  Ok [ subheader "⭐ Rating Distribution";
       pyplot (histplot rating 20);
       markdown "---";
       subheader "Price vs Rating ";
       pyplot (scatterplot x_rating y_price);
       markdown "---";
       subheader "Price vs Number of People Rated";
       pyplot (scatterplot x_people y_price') ].

(** Lines 191-215 *)
Definition tab_authors_top (filtered_df : DataFrame) : result (list element) :=
  let top := [ subheader "👤 Top Authors (by number of books in filtered data)" ] in
  if negb (empty filtered_df) then
    author_counts <- top_value_counts argsort filtered_df "Author" 10 ;;
    Ok (top ++ [ pyplot (barplot_counts author_counts);
                 write "**Top 10 authors (table):**";
                 dataframe_counts "Book_Count" author_counts ])
  else Ok (top ++ [ info no_data ]).

(** Lines 217-242 *)
Definition tab_authors_genre (filtered_df : DataFrame) : result (list element) :=
  let top := [ markdown "---"; subheader "Average Rating by Main Genre" ] in
  if negb (empty filtered_df) then
    avg_rating_genre <- mean_by_group argsort filtered_df "Main Genre" "Rating" ;;
    Ok (top ++ [ pyplot (barplot_means avg_rating_genre);
                 write "**Average Rating by Main Genre (table):**";
                 dataframe_means avg_rating_genre ])
  else Ok (top ++ [ info no_data ]).

Definition tab_authors (filtered_df : DataFrame) : result (list element) :=
  top <- tab_authors_top filtered_df ;;
  genre <- tab_authors_genre filtered_df ;;
  Ok (top ++ genre).

(** Line 251 *)
Definition existing_numeric (filtered_df : DataFrame) : list string :=
  filter (has_column filtered_df) numeric_cols.

(** Lines 247-264 *)
Definition tab_corr (filtered_df : DataFrame) : result (list element) :=
  let top := [ subheader "📈 Correlation Heatmap (Numeric Features)" ] in
  if (2 <=? List.length (existing_numeric filtered_df))%nat then
    m <- corr sqrt filtered_df (existing_numeric filtered_df) ;;
    Ok (top ++ [ pyplot (heatmap m);
                 write "**Correlation Matrix (table):**";
                 dataframe_corr m ])
  else Ok (top ++ [ info not_enough_columns ]).

(** The script from the filter on: the tabs are filled one after the
    other from the same filtered view. *)
Definition dashboard (df : DataFrame) (selected_types selected_genres : list string)
    (rating_range : Q * Q) (checkbox : bool) : result (list element) :=
  filtered_df <- apply_filters df selected_types selected_genres rating_range
                   (sidebar_exclude_outliers df checkbox) ;;
  overview <- tab_overview filtered_df ;;
  price <- tab_price filtered_df ;;
  rating <- tab_rating filtered_df ;;
  authors <- tab_authors filtered_df ;;
  correlations <- tab_corr filtered_df ;;
  Ok (overview ++ price ++ rating ++ authors ++ correlations).

End Tabs.

(** ** Sample tables *)

Definition book (type genre author : option string) (rating people price : option Q)
    (outlier : bool) : Book :=
  {| Type_ := type; Main_Genre := genre; Author := author; Rating := rating;
     No_of_People_rated := people; Price := price; Price_outlier := outlier |}.

Definition base_columns : list string :=
  ["Type"; "Main Genre"; "Author"; "Rating"; "No. of People rated"; "Price"].

(** The five rows of the specification's worked example *)
Definition five_books : DataFrame :=
  {| columns := base_columns;
     rows :=
       [ book (Some "Fiction") (Some "Novel") (Some "A") (Some 4) (Some 10) (Some 20) false;
         book (Some "Fiction") (Some "Novel") (Some "B") (Some (9 # 2)) (Some 7) (Some 30) false;
         book (Some "Nonfiction") (Some "History") (Some "A") (Some 3) (Some 3) (Some 45) false;
         book (Some "Fiction") (Some "Poetry") (Some "C") (Some 5) (Some 99) (Some 10) false;
         book (Some "Nonfiction") (Some "History") (Some "B") (Some 2) (Some 1) (Some 15) false ] |}.

(** A table with the outlier flag and with gaps in the filtered columns *)
Definition gappy_books : DataFrame :=
  {| columns := base_columns ++ ["Price_outlier"];
     rows :=
       [ book (Some "Fiction") (Some "Novel") (Some "A") (Some 4) (Some 10) (Some 20) false;
         book None (Some "Novel") (Some "B") (Some (9 # 2)) (Some 7) (Some 30) false;
         book (Some "Fiction") None (Some "A") (Some 3) (Some 3) (Some 45) false;
         book (Some "Fiction") (Some "Novel") (Some "C") None (Some 99) (Some 10) false;
         book (Some "Fiction") (Some "Novel") None (Some 5) None (Some 900) true;
         book (Some "Fiction") (Some "Novel") (Some "A") (Some 5) (Some 2) None false ] |}.



(** ** Vocabulary of the specification *)

(** The conjunction of active predicates, as a proposition on one row *)
Definition Satisfies (outlier_column : bool) (st sg : list string) (rr : Q * Q)
    (eo : bool) (b : Book) : Prop :=
  (exists t, Type_ b = Some t /\ In t st)
  /\ (exists g, Main_Genre b = Some g /\ In g sg)
  /\ (exists r, Rating b = Some r /\ fst rr <= r /\ r <= snd rr)
  /\ (eo = true -> outlier_column = true -> Price_outlier b = false).


(** The number of rows that carry the value [k] *)
Definition occurrences (k : string) (s : Series (option string)) : nat :=
  List.length (filter (is_label k) s).

(** The count stored for [k] in a table of counts, 0 without an entry *)
Fixpoint lookup (k : string) (table : list (string * nat)) : nat :=
  match table with
  | [] => 0%nat
  | (k', n) :: t => if k =? k' then n else lookup k t
  end.



(** The cells of a numeric column, by label *)
Definition float_column (df : DataFrame) (c : string) : Series (option Q) :=
  match float_field c with
  | Some f => map f (rows df)
  | None => []
  end.

(** The entry of a correlation matrix at row [i], column [j] *)
Definition entry (m : CorrMatrix) (i j : nat) : option Q :=
  nth j (nth i (entries m) []) None.

(** ** The rest of the sidebar *)

(** Line 53, [min_rating] and [max_rating]: the bounds of the slider, which
    are also its default range (line 58). *)
Definition rating_bounds (df : DataFrame) : result (option Q * option Q) :=
  lowest <- getitem_float df "Rating" ;;
  highest <- getitem_float df "Rating" ;;
  Ok (min lowest, max highest).

(** Lines 54-60: on a first run the slider hands back its default
    [value]; streamlit refuses bounds that leave no room between
    [min_value] and [max_value]. *)
Definition slider (min_value max_value : Q) (value : Q * Q) : result (Q * Q) :=
  if Qle_bool max_value min_value then StreamlitAPIException else Ok value.

(** Line 81: [len(filtered_df)] *)
Definition len (df : DataFrame) : nat := List.length (rows df).

(** A row with its type, its genre and its rating *)
Definition complete_row (b : Book) : bool :=
  notna (Type_ b) && notna (Main_Genre b) && notna (Rating b).

(** The script from line 37 on.  The sidebar reads its options and the
    bounds of its slider from the table before the filter runs; the
    selection is what the widgets hand back.  Whether streamlit accepts
    the bounds is [slider]'s matter and is assumed where a property
    depends on it. *)
Definition script (argsort : forall A : Type, (A -> Q) -> list A -> list A)
    (sqrt : Q -> Q) (df : DataFrame) (selected_types selected_genres : list string)
    (rating_range : Q * Q) (checkbox : bool) : result (list element) :=
  types <- selectable df "Type" ;;
  genres <- selectable df "Main Genre" ;;
  bounds <- rating_bounds df ;;
  dashboard argsort sqrt df selected_types selected_genres rating_range checkbox.

(** The value read at rank [pos] of the sorted values [vs], between the
    two nearest ranks: the expression [quantile] returns *)
Definition interpolate (vs : list Q) (v0 : Q) (pos : Q) : Q :=
  let lo := Z.to_nat (Qfloor pos) in
  let a := nth lo vs v0 in
  let b := nth (S lo) vs a in
  a + (b - a) * (pos - inject_Z (Qfloor pos)).

(** * Properties *)

(** ** Masks and boolean indexing *)

Lemma select_map {A : Type} (p : A -> bool) (l : list A) :
  select l (map p l) = filter p l.
Proof.
  induction l as [|x l IH]; simpl; [reflexivity|].
  destruct (p x); rewrite IH; reflexivity.
Qed.

Lemma band_map {A : Type} (p q : A -> bool) (l : list A) :
  band (map p l) (map q l) = map (fun x => p x && q x) l.
Proof.
  induction l as [|x l IH]; simpl; [reflexivity|].
  rewrite IH; reflexivity.
Qed.

Lemma filter_twice {A : Type} (p q : A -> bool) (l : list A) :
  filter q (filter p l) = filter (fun x => p x && q x) l.
Proof.
  induction l as [|x l IH]; simpl; [reflexivity|].
  destruct (p x); simpl; [destruct (q x)|]; rewrite IH; reflexivity.
Qed.

Lemma filter_idem {A : Type} (p : A -> bool) (l : list A) :
  filter p (filter p l) = filter p l.
Proof.
  rewrite filter_twice. apply filter_ext.
  intros x. destruct (p x); reflexivity.
Qed.

Lemma isin_map (f : Book -> option string) (values : list string) (l : list Book) :
  isin (map f l) values = map (fun b => in_selection (f b) values) l.
Proof. unfold isin. rewrite map_map. reflexivity. Qed.

Lemma series_ge_map (f : Book -> option Q) (lo : Q) (l : list Book) :
  series_ge (map f l) lo = map (fun b => match f b with
                                  | Some v => Qle_bool lo v
                                  | None => false
                                  end) l.
Proof. unfold series_ge. rewrite map_map. reflexivity. Qed.

Lemma series_le_map (f : Book -> option Q) (hi : Q) (l : list Book) :
  series_le (map f l) hi = map (fun b => match f b with
                                  | Some v => Qle_bool v hi
                                  | None => false
                                  end) l.
Proof. unfold series_le. rewrite map_map. reflexivity. Qed.

(** ** The filter pipeline *)

Lemma getitem_ok {A : Type} (field : string -> option (Book -> A))
    (df : DataFrame) (c : string) (f : Book -> A) :
  has_column df c = true -> field c = Some f ->
  getitem field df c = Ok (map f (rows df)).
Proof. intros Hc Hf. unfold getitem. rewrite Hc, Hf. reflexivity. Qed.

Lemma getitem_missing {A : Type} (field : string -> option (Book -> A))
    (df : DataFrame) (c : string) :
  has_column df c = false -> getitem field df c = KeyError c.
Proof. intros Hc. unfold getitem. rewrite Hc. reflexivity. Qed.

Lemma base_mask (st sg : list string) (rr : Q * Q) (l : list Book) :
  select l
    (band (band (band (isin (map Type_ l) st) (isin (map Main_Genre l) sg))
                (series_ge (map Rating l) (fst rr)))
          (series_le (map Rating l) (snd rr)))
  = filter (spec_base st sg rr) l.
Proof.
  rewrite !isin_map, series_ge_map, series_le_map, !band_map, select_map.
  apply filter_ext. intros b. unfold spec_base, in_range.
  destruct (Rating b); [|rewrite !andb_false_r; reflexivity].
  rewrite <- !andb_assoc. reflexivity.
Qed.

Lemma loc_base (df : DataFrame) (st sg : list string) (rr : Q * Q) :
  loc (copy df)
    (band (band (band (isin (map Type_ (rows df)) st)
                      (isin (map Main_Genre (rows df)) sg))
                (series_ge (map Rating (rows df)) (fst rr)))
          (series_le (map Rating (rows df)) (snd rr)))
  = {| columns := columns df; rows := filter (spec_base st sg rr) (rows df) |}.
Proof. unfold loc, copy. cbn [rows columns]. rewrite base_mask. reflexivity. Qed.

Lemma apply_filters_eq (df : DataFrame) (st sg : list string) (rr : Q * Q) (eo : bool) :
  required_columns df = true ->
  apply_filters df st sg rr eo
  = Ok {| columns := columns df;
          rows := filter (spec_keep (has_column df "Price_outlier") st sg rr eo)
                    (rows df) |}.
Proof.
  unfold required_columns. intros H.
  apply andb_prop in H as [H HR]. apply andb_prop in H as [HT HG].
  unfold apply_filters, getitem_str, getitem_float, getitem_bool.
  rewrite (getitem_ok str_field (copy df) "Type" Type_ HT eq_refl).
  rewrite (getitem_ok str_field (copy df) "Main Genre" Main_Genre HG eq_refl).
  rewrite (getitem_ok float_field (copy df) "Rating" Rating HR eq_refl).
  cbn [bind copy rows]. rewrite loc_base.
  unfold spec_keep.
  destruct (eo && has_column df "Price_outlier") eqn:E.
  - apply andb_prop in E as [_ HO].
    unfold getitem at 1. unfold has_column in HO |- *.
    cbn [columns]. rewrite HO.
    cbn [bind loc rows columns bool_field String.eqb Ascii.eqb Bool.eqb]. unfold inv.
    unfold loc. cbn [rows columns].
    rewrite map_map, select_map, filter_twice. reflexivity.
  - f_equal. f_equal.
    apply filter_ext. intros b. rewrite andb_true_r. reflexivity.
Qed.

Lemma apply_filters_requires (df : DataFrame) (st sg : list string) (rr : Q * Q)
    (eo : bool) (fv : DataFrame) :
  apply_filters df st sg rr eo = Ok fv -> required_columns df = true.
Proof.
  unfold required_columns, apply_filters, getitem_str, getitem_float.
  destruct (has_column df "Type") eqn:HT.
  2:{ rewrite (getitem_missing str_field (copy df) "Type" HT). discriminate. }
  rewrite (getitem_ok str_field (copy df) "Type" Type_ HT eq_refl).
  destruct (has_column df "Main Genre") eqn:HG.
  2:{ cbn [bind]. rewrite (getitem_missing str_field (copy df) "Main Genre" HG).
      discriminate. }
  rewrite (getitem_ok str_field (copy df) "Main Genre" Main_Genre HG eq_refl).
  destruct (has_column df "Rating") eqn:HR.
  2:{ cbn [bind]. rewrite (getitem_missing float_field (copy df) "Rating" HR).
      discriminate. }
  reflexivity.
Qed.

Lemma in_selection_iff (x : option string) (values : list string) :
  in_selection x values = true <-> exists v, x = Some v /\ In v values.
Proof.
  destruct x as [v|]; simpl.
  - rewrite existsb_exists. split.
    + intros [w [Hin Heq]]. apply String.eqb_eq in Heq. subst w. eauto.
    + intros [w [Heq Hin]]. inversion Heq; subst w.
      exists v. split; [assumption | apply String.eqb_refl].
  - split; [discriminate | intros [v [Heq _]]; discriminate].
Qed.

Lemma in_range_iff (x : option Q) (lo hi : Q) :
  in_range x lo hi = true <-> exists r, x = Some r /\ lo <= r /\ r <= hi.
Proof.
  destruct x as [r|]; simpl.
  - rewrite andb_true_iff, !Qle_bool_iff. split.
    + intros [H1 H2]. eauto.
    + intros [r' [Heq H]]. inversion Heq; subst r'. exact H.
  - split; [discriminate | intros [r [Heq _]]; discriminate].
Qed.

Lemma spec_keep_iff (oc : bool) (st sg : list string) (rr : Q * Q) (eo : bool) (b : Book) :
  spec_keep oc st sg rr eo b = true <-> Satisfies oc st sg rr eo b.
Proof.
  unfold spec_keep, spec_base, Satisfies.
  rewrite !andb_true_iff, !in_selection_iff, in_range_iff.
  assert (O : (if eo && oc then negb (Price_outlier b) else true) = true
              <-> (eo = true -> oc = true -> Price_outlier b = false)).
  { destruct eo, oc, (Price_outlier b); simpl; split; auto; intros H;
      try discriminate; symmetry; apply H; reflexivity. }
  rewrite O. tauto.
Qed.

Lemma required_columns_frame (df : DataFrame) (l : list Book) :
  required_columns {| columns := columns df; rows := l |} = required_columns df.
Proof. reflexivity. Qed.

Lemma filter_none {A : Type} (p : A -> bool) (l : list A) :
  (forall x, p x = false) -> filter p l = [].
Proof.
  intros H. induction l as [|x l IH]; simpl; [reflexivity|].
  rewrite H. exact IH.
Qed.

(** C1. Under the columns the filter reads, the filtered view is the
    table's rows that satisfy the conjunction of active predicates (type
    selected, genre selected, rating within the closed range, and not an
    outlier when exclusion is asked for and the flag column exists), in
    the table's order, with the table's columns. *)
Theorem filtered_view_exact (df : DataFrame) (st sg : list string) (rr : Q * Q) (eo : bool) :
  required_columns df = true ->
  exists fv,
    apply_filters df st sg rr eo = Ok fv
    /\ columns fv = columns df
    /\ rows fv = filter (spec_keep (has_column df "Price_outlier") st sg rr eo) (rows df)
    /\ (forall b, spec_keep (has_column df "Price_outlier") st sg rr eo b = true
                  <-> Satisfies (has_column df "Price_outlier") st sg rr eo b)
    /\ (forall b, In b (rows fv)
                  <-> In b (rows df)
                      /\ Satisfies (has_column df "Price_outlier") st sg rr eo b).
Proof.
  intros Hreq. eexists. split; [apply apply_filters_eq; exact Hreq|].
  cbn [columns rows].
  split; [reflexivity|]. split; [reflexivity|].
  split; intros b; [apply spec_keep_iff|].
  rewrite filter_In, spec_keep_iff. reflexivity.
Qed.

Lemma filtered_view_exact_witness :
  exists fv,
    apply_filters five_books ["Fiction"] ["Novel"; "Poetry"] (4, 5) false = Ok fv
    /\ rows fv = [ nth 0 (rows five_books) (book None None None None None None false);
                   nth 1 (rows five_books) (book None None None None None None false);
                   nth 3 (rows five_books) (book None None None None None None false) ].
Proof.
  destruct (filtered_view_exact five_books ["Fiction"] ["Novel"; "Poetry"] (4, 5) false
              eq_refl) as [fv [H [_ [Hrows _]]]].
  exists fv. split; [exact H | rewrite Hrows; reflexivity].
Defined.

(** C7. Filtering is idempotent: filtering a filtered view again with the
    same parameters returns it unchanged. *)
Theorem filter_idempotent (df fv : DataFrame) (st sg : list string) (rr : Q * Q) (eo : bool) :
  apply_filters df st sg rr eo = Ok fv ->
  apply_filters fv st sg rr eo = Ok fv.
Proof.
  intros H. pose proof (apply_filters_requires _ _ _ _ _ _ H) as Hreq.
  rewrite (apply_filters_eq df st sg rr eo Hreq) in H.
  injection H as <-.
  rewrite apply_filters_eq by (rewrite required_columns_frame; exact Hreq).
  cbn [rows columns].
  change (has_column {| columns := columns df; rows := _ |} "Price_outlier")
    with (has_column df "Price_outlier").
  rewrite filter_idem. reflexivity.
Qed.

Lemma filter_idempotent_witness :
  apply_filters
    {| columns := columns gappy_books;
       rows := [ nth 0 (rows gappy_books) (book None None None None None None false);
                 nth 5 (rows gappy_books) (book None None None None None None false) ] |}
    ["Fiction"] ["Novel"] (3, 5) true
  = Ok {| columns := columns gappy_books;
          rows := [ nth 0 (rows gappy_books) (book None None None None None None false);
                    nth 5 (rows gappy_books) (book None None None None None None false) ] |}.
Proof.
  apply (filter_idempotent gappy_books _ ["Fiction"] ["Novel"] (3, 5) true).
  reflexivity.
Defined.

(** C8. With the columns the filter reads in place, an empty type
    selection or an empty genre selection gives an empty view, whatever
    the other parameters are, and the pipeline returns normally. *)
Theorem empty_selection_empty_view (df : DataFrame) (st sg : list string)
    (rr : Q * Q) (eo : bool) :
  required_columns df = true ->
  st = [] \/ sg = [] ->
  apply_filters df st sg rr eo = Ok {| columns := columns df; rows := [] |}.
Proof.
  intros Hreq Hsel. rewrite (apply_filters_eq df st sg rr eo Hreq).
  f_equal. f_equal. apply filter_none. intros b.
  unfold spec_keep, spec_base.
  destruct Hsel as [-> | ->].
  - destruct (Type_ b); reflexivity.
  - destruct (Main_Genre b); simpl; rewrite andb_false_r; reflexivity.
Qed.

Lemma empty_selection_empty_view_witness :
  apply_filters five_books ["Fiction"; "Nonfiction"] [] (2, 5) true
  = Ok {| columns := columns five_books; rows := [] |}.
Proof.
  apply (empty_selection_empty_view five_books ["Fiction"; "Nonfiction"] [] (2, 5) true).
  - reflexivity.
  - right. reflexivity.
Defined.

(** C9. When the table has no [Price_outlier] column, the sidebar forces
    the flag off, the pipeline gives the same outcome for either value of
    the flag, and with the columns the filter reads in place that outcome
    is the view selected by type, genre and rating alone. *)
Theorem outlier_step_noop (df : DataFrame) (st sg : list string) (rr : Q * Q) (eo : bool) :
  has_column df "Price_outlier" = false ->
  sidebar_exclude_outliers df eo = false
  /\ apply_filters df st sg rr eo = apply_filters df st sg rr false
  /\ (required_columns df = true ->
      apply_filters df st sg rr eo
      = Ok {| columns := columns df; rows := filter (spec_base st sg rr) (rows df) |}).
Proof.
  intros Habs. split; [|split].
  - unfold sidebar_exclude_outliers. rewrite Habs. reflexivity.
  - unfold apply_filters. rewrite Habs, andb_false_r. reflexivity.
  - intros Hreq. rewrite (apply_filters_eq df st sg rr eo Hreq), Habs.
    f_equal. f_equal. apply filter_ext. intros b.
    unfold spec_keep. rewrite andb_false_r, andb_true_r. reflexivity.
Qed.

Lemma outlier_step_noop_witness :
  sidebar_exclude_outliers five_books true = false
  /\ apply_filters five_books ["Nonfiction"] ["History"] (2, 5) true
     = apply_filters five_books ["Nonfiction"] ["History"] (2, 5) false
  /\ apply_filters five_books ["Nonfiction"] ["History"] (2, 5) true
     = Ok {| columns := columns five_books;
             rows := filter (spec_base ["Nonfiction"] ["History"] (2, 5))
                       (rows five_books) |}.
Proof.
  destruct (outlier_step_noop five_books ["Nonfiction"] ["History"] (2, 5) true eq_refl)
    as [Hside [Hsame Hbase]].
  split; [exact Hside|]. split; [exact Hsame|].
  apply Hbase. reflexivity.
Defined.

(** C10. No row of a filtered view lacks its type, its genre or its
    rating: a missing cell is in no selection and passes neither rating
    bound, so the mask is False on such rows; the table itself keeps them. *)
Theorem missing_values_excluded (df fv : DataFrame) (st sg : list string)
    (rr : Q * Q) (eo : bool) :
  apply_filters df st sg rr eo = Ok fv ->
  Forall (fun b => Type_ b <> None /\ Main_Genre b <> None /\ Rating b <> None) (rows fv)
  /\ isin [None] st = [false]
  /\ isin [None] sg = [false]
  /\ series_ge [None] (fst rr) = [false]
  /\ series_le [None] (snd rr) = [false].
Proof.
  intros H. split; [|repeat split; reflexivity].
  pose proof (apply_filters_requires _ _ _ _ _ _ H) as Hreq.
  rewrite (apply_filters_eq df st sg rr eo Hreq) in H.
  injection H as <-. cbn [rows].
  apply Forall_forall. intros b Hin.
  apply filter_In in Hin as [_ Hk]. apply spec_keep_iff in Hk.
  destruct Hk as [[t [Ht _]] [[g [Hg _]] [[r [Hr _]] _]]].
  rewrite Ht, Hg, Hr. repeat split; discriminate.
Qed.

Lemma missing_values_excluded_witness :
  Forall (fun b => Type_ b <> None /\ Main_Genre b <> None /\ Rating b <> None)
    [ nth 0 (rows gappy_books) (book None None None None None None false);
      nth 5 (rows gappy_books) (book None None None None None None false) ]
  /\ List.length (rows gappy_books) = 6%nat.
Proof.
  split; [|reflexivity].
  apply (missing_values_excluded gappy_books
           {| columns := columns gappy_books;
              rows := [ nth 0 (rows gappy_books) (book None None None None None None false);
                        nth 5 (rows gappy_books) (book None None None None None None false) ] |}
           ["Fiction"] ["Novel"] (0, 5) true).
  reflexivity.
Defined.

(** ** Sorting in descending order *)






Lemma filter_partition {A : Type} (p : A -> bool) (l : list A) :
  Permutation (filter p l ++ filter (fun a => negb (p a)) l) l.
Proof.
  induction l as [|x l IH]; simpl; [constructor|].
  destruct (p x); simpl.
  - constructor. exact IH.
  - apply Permutation_sym, Permutation_cons_app, Permutation_sym. exact IH.
Qed.

Section SortValues.

Variable argsort : forall A : Type, (A -> Q) -> list A -> list A.

Hypothesis argsort_perm :
  forall (A : Type) (key : A -> Q) (l : list A), Permutation (argsort A key l) l.

Hypothesis argsort_sorted :
  forall (A : Type) (key : A -> Q) (l : list A),
    Sorted (fun a b => key a <= key b) (argsort A key l).

Lemma sort_values_desc_perm {A : Type} (key : A -> option Q) (l : list A) :
  Permutation (sort_values_desc argsort key l) l.
Proof.
  unfold sort_values_desc, isna.
  eapply Permutation_trans; [|apply (filter_partition (fun a => notna (key a)))].
  apply Permutation_app_tail.
  eapply Permutation_trans; [apply Permutation_sym, Permutation_rev|].
  eapply Permutation_trans; [apply argsort_perm|].
  apply Permutation_sym, Permutation_rev.
Qed.


End SortValues.

(** ** The sample sort meets the contract of [argsort] *)

Lemma Qle_bool_false (x y : Q) : Qle_bool x y = false -> y <= x.
Proof.
  intros H. destruct (Qlt_le_dec y x) as [Hlt | Hle].
  - apply Qlt_le_weak. exact Hlt.
  - apply Qle_bool_iff in Hle. congruence.
Qed.

Lemma insert_before_perm {A : Type} (key : A -> Q) (x : A) (l : list A) :
  Permutation (insert_before key x l) (x :: l).
Proof.
  induction l as [|y l IH]; simpl; [apply Permutation_refl|].
  destruct (Qle_bool (key x) (key y)); [apply Permutation_refl|].
  eapply Permutation_trans; [apply perm_skip, IH | apply perm_swap].
Qed.

Lemma insert_before_sorted {A : Type} (key : A -> Q) (x : A) (l : list A) :
  Sorted (fun a b => key a <= key b) l ->
  Sorted (fun a b => key a <= key b) (insert_before key x l).
Proof.
  induction 1 as [|y l Hl IH Hy]; simpl; [repeat constructor|].
  destruct (Qle_bool (key x) (key y)) eqn:E.
  - constructor; [constructor; assumption|].
    constructor. apply Qle_bool_iff. exact E.
  - constructor; [exact IH|].
    apply Qle_bool_false in E.
    destruct l as [|z l]; simpl; [constructor; exact E|].
    destruct (Qle_bool (key x) (key z)); constructor;
      [exact E | inversion Hy; assumption].
Qed.

Lemma stable_argsort_perm (A : Type) (key : A -> Q) (l : list A) :
  Permutation (stable_argsort A key l) l.
Proof.
  induction l as [|x l IH]; simpl; [constructor|].
  eapply Permutation_trans; [apply insert_before_perm | apply perm_skip, IH].
Qed.

Lemma stable_argsort_sorted (A : Type) (key : A -> Q) (l : list A) :
  Sorted (fun a b => key a <= key b) (stable_argsort A key l).
Proof.
  induction l as [|x l IH]; simpl; [constructor|].
  apply insert_before_sorted. exact IH.
Qed.

(** ** The table of counts *)

Lemma incr_lookup_same (k : string) (t : list (string * nat)) :
  lookup k (incr k t) = S (lookup k t).
Proof.
  induction t as [|[k' n] t IH]; simpl.
  - rewrite String.eqb_refl. reflexivity.
  - destruct (k =? k') eqn:E; simpl; rewrite E; [reflexivity | exact IH].
Qed.

Lemma incr_lookup_other (k k' : string) (t : list (string * nat)) :
  k <> k' -> lookup k' (incr k t) = lookup k' t.
Proof.
  intros Hne. induction t as [|[k0 n] t IH]; simpl.
  - destruct (k' =? k) eqn:E; [|reflexivity].
    apply String.eqb_eq in E. congruence.
  - destruct (k =? k0) eqn:E; simpl.
    + apply String.eqb_eq in E. subst k0.
      destruct (k' =? k) eqn:E'; [|reflexivity].
      apply String.eqb_eq in E'. congruence.
    + rewrite IH. reflexivity.
Qed.

Lemma incr_keys (k k' : string) (t : list (string * nat)) :
  In k' (map fst (incr k t)) <-> k' = k \/ In k' (map fst t).
Proof.
  induction t as [|[k0 n] t IH]; simpl.
  - intuition congruence.
  - destruct (k =? k0) eqn:E; simpl.
    + apply String.eqb_eq in E. subst k0. intuition congruence.
    + rewrite IH. intuition congruence.
Qed.

Lemma incr_NoDup (k : string) (t : list (string * nat)) :
  NoDup (map fst t) -> NoDup (map fst (incr k t)).
Proof.
  induction t as [|[k0 n] t IH]; simpl; intros H.
  - constructor; [intros [] | constructor].
  - inversion H as [|? ? Hnotin Hnd]; subst.
    destruct (k =? k0) eqn:E; simpl.
    + constructor; assumption.
    + constructor; [|apply IH; exact Hnd].
      rewrite incr_keys. intros [-> | Hin]; [|contradiction].
      rewrite String.eqb_refl in E. discriminate.
Qed.

Lemma lookup_In (k : string) (n : nat) (t : list (string * nat)) :
  NoDup (map fst t) -> In (k, n) t -> lookup k t = n.
Proof.
  induction t as [|[k0 m] t IH]; simpl; intros Hnd Hin; [contradiction|].
  inversion Hnd as [|? ? Hnotin Hnd']; subst.
  destruct Hin as [Heq | Hin].
  - inversion Heq; subst. rewrite String.eqb_refl. reflexivity.
  - destruct (k =? k0) eqn:E; [|apply IH; assumption].
    apply String.eqb_eq in E. subst k0. exfalso. apply Hnotin.
    apply (in_map fst) in Hin. exact Hin.
Qed.

Lemma tally_lookup (k : string) (s : Series (option string)) (t : list (string * nat)) :
  lookup k (fold_left tally s t) = (lookup k t + occurrences k s)%nat.
Proof.
  revert t. induction s as [|x s IH]; intros t; simpl.
  - unfold occurrences. simpl. lia.
  - rewrite IH. unfold occurrences. simpl.
    destruct x as [v|]; simpl; [|reflexivity].
    destruct (v =? k) eqn:E; simpl.
    + apply String.eqb_eq in E. subst v. rewrite incr_lookup_same. lia.
    + rewrite incr_lookup_other; [reflexivity|].
      intros ->. rewrite String.eqb_refl in E. discriminate.
Qed.

Lemma tally_keys (k : string) (s : Series (option string)) (t : list (string * nat)) :
  In k (map fst (fold_left tally s t)) <-> In k (map fst t) \/ In (Some k) s.
Proof.
  revert t. induction s as [|x s IH]; intros t; simpl; [tauto|].
  rewrite IH. destruct x as [v|]; simpl.
  - rewrite incr_keys. intuition congruence.
  - intuition congruence.
Qed.

Lemma tally_NoDup (s : Series (option string)) (t : list (string * nat)) :
  NoDup (map fst t) -> NoDup (map fst (fold_left tally s t)).
Proof.
  revert t. induction s as [|x s IH]; intros t H; simpl; [exact H|].
  apply IH. destruct x; simpl; [apply incr_NoDup|]; exact H.
Qed.


Lemma count_table_spec (s : Series (option string)) :
  NoDup (map fst (count_table s))
  /\ (forall k, In k (map fst (count_table s)) <-> In (Some k) s)
  /\ (forall k n, In (k, n) (count_table s) -> n = occurrences k s).
Proof.
  unfold count_table.
  assert (Hnd : NoDup (map fst (fold_left tally s []))).
  { apply tally_NoDup. constructor. }
  split; [exact Hnd|]. split.
  - intros k. rewrite tally_keys. simpl. tauto.
  - intros k n Hin. apply (lookup_In _ _ _ Hnd) in Hin.
    rewrite tally_lookup in Hin. simpl in Hin. symmetry. exact Hin.
Qed.

(** ** Top authors *)

Section ValueCounts.

Variable argsort : forall A : Type, (A -> Q) -> list A -> list A.

Hypothesis argsort_perm :
  forall (A : Type) (key : A -> Q) (l : list A), Permutation (argsort A key l) l.

Hypothesis argsort_sorted :
  forall (A : Type) (key : A -> Q) (l : list A),
    Sorted (fun a b => key a <= key b) (argsort A key l).




End ValueCounts.

(** ** Equal counts keep the order of first appearance *)














Section StableValueCounts.

Variable argsort : forall A : Type, (A -> Q) -> list A -> list A.

Hypothesis argsort_perm :
  forall (A : Type) (key : A -> Q) (l : list A), Permutation (argsort A key l) l.

Hypothesis argsort_sorted :
  forall (A : Type) (key : A -> Q) (l : list A),
    Sorted (fun a b => key a <= key b) (argsort A key l).

Hypothesis argsort_stable :
  forall (A : Type) (key : A -> Q) (l : list A) (k : Q),
    filter (fun a => Qeq_bool (key a) k) (argsort A key l)
    = filter (fun a => Qeq_bool (key a) k) l.




End StableValueCounts.


(** Six rows with gaps: A three times, B and C once, first met in the
    order A, B, C. *)
Example top_authors_gappy_books :
  top_value_counts stable_argsort gappy_books "Author" 10
  = Ok [("A", 3%nat); ("B", 1%nat); ("C", 1%nat)].
Proof. reflexivity. Qed.

(** ** Mean by group *)

Lemma dropna_In {A : Type} (v : A) (s : Series (option A)) :
  In v (dropna s) <-> In (Some v) s.
Proof.
  induction s as [|[w|] s IH]; simpl.
  - tauto.
  - rewrite IH. intuition congruence.
  - rewrite IH. intuition congruence.
Qed.

Lemma unique_In (x : string) (l : list string) : In x (unique l) <-> In x l.
Proof.
  induction l as [|y l IH]; simpl; [tauto|].
  rewrite filter_In, IH. split.
  - intros [-> | [H _]]; auto.
  - intros [-> | H]; [left; reflexivity|].
    destruct (String.eqb_spec x y) as [-> | Hne]; [left; reflexivity|].
    right. split; [exact H | reflexivity].
Qed.

Lemma unique_NoDup (l : list string) : NoDup (unique l).
Proof.
  induction l as [|y l IH]; simpl; constructor.
  - rewrite filter_In. intros [_ H]. rewrite String.eqb_refl in H. discriminate.
  - apply NoDup_filter. exact IH.
Qed.

Lemma insert_key_perm (k : string) (l : list string) :
  Permutation (insert_key k l) (k :: l).
Proof.
  induction l as [|y l IH]; simpl; [apply Permutation_refl|].
  destruct (k <=? y)%string; [apply Permutation_refl|].
  eapply Permutation_trans; [apply perm_skip, IH | apply perm_swap].
Qed.

Lemma sort_keys_perm (l : list string) : Permutation (sort_keys l) l.
Proof.
  induction l as [|x l IH]; simpl; [constructor|].
  eapply Permutation_trans; [apply insert_key_perm | apply perm_skip, IH].
Qed.

(** The values a multiselect offers are the strings found in the column;
    with all of them selected the mask is False on the missing cells only. *)
Lemma selectable_spec (df : DataFrame) (c : string) (f : Book -> option string) :
  has_column df c = true -> str_field c = Some f ->
  exists options,
    selectable df c = Ok options
    /\ NoDup options
    /\ (forall v, In v options <-> exists b, In b (rows df) /\ f b = Some v)
    /\ (forall b, In b (rows df) -> in_selection (f b) options = notna (f b)).
Proof.
  intros Hc Hf. eexists. split.
  { unfold selectable, getitem_str. rewrite (getitem_ok str_field df c f Hc Hf).
    reflexivity. }
  assert (Hin : forall v, In v (sort_keys (unique (dropna (map f (rows df)))))
                          <-> exists b, In b (rows df) /\ f b = Some v).
  { intros v. split.
    - intros H. apply (Permutation_in _ (sort_keys_perm _)) in H.
      apply unique_In, dropna_In, in_map_iff in H.
      destruct H as [b [Hb Hin]]. eauto.
    - intros [b [Hin Hb]].
      apply (Permutation_in _ (Permutation_sym (sort_keys_perm _))).
      apply unique_In, dropna_In, in_map_iff. eauto. }
  split; [|split; [exact Hin|]].
  - apply (Permutation_NoDup (Permutation_sym (sort_keys_perm _))).
    apply unique_NoDup.
  - intros b Hb. destruct (f b) as [v|] eqn:E; simpl; [|reflexivity].
    apply existsb_exists. exists v. split; [|apply String.eqb_refl].
    apply Hin. eauto.
Qed.

Lemma select_map_map {A B : Type} (v : A -> B) (p : A -> bool) (l : list A) :
  select (map v l) (map p l) = map v (filter p l).
Proof.
  induction l as [|x l IH]; simpl; [reflexivity|].
  destruct (p x); simpl; rewrite IH; reflexivity.
Qed.

Lemma group_values_rows (k : string) (label : Book -> option string)
    (value : Book -> option Q) (l : list Book) :
  group_values k (map label l) (map value l)
  = map value (filter (fun b => is_label k (label b)) l).
Proof.
  unfold group_values. rewrite map_map. apply select_map_map.
Qed.


Section MeanByGroup.

Variable argsort : forall A : Type, (A -> Q) -> list A -> list A.

Hypothesis argsort_perm :
  forall (A : Type) (key : A -> Q) (l : list A), Permutation (argsort A key l) l.

Hypothesis argsort_sorted :
  forall (A : Type) (key : A -> Q) (l : list A),
    Sorted (fun a b => key a <= key b) (argsort A key l).


End MeanByGroup.


(** The worked example of the specification: means 4.5 and 2.5. *)
Example mean_by_group_five_books :
  mean_by_group stable_argsort five_books "Type" "Rating"
  = Ok [("Fiction", Some (27 # 6)); ("Nonfiction", Some (5 # 2))].
Proof. reflexivity. Qed.

(** ** Correlations *)

Lemma existing_numeric_In (fv : DataFrame) (c : string) :
  In c (existing_numeric fv) <-> In c numeric_cols /\ has_column fv c = true.
Proof. unfold existing_numeric. apply filter_In. Qed.

Lemma numeric_cols_float (c : string) :
  In c numeric_cols -> exists f, float_field c = Some f.
Proof.
  intros [<- | [<- | [<- | []]]]; eexists; reflexivity.
Qed.

Lemma getitems_ok (fv : DataFrame) (cols : list string) :
  (forall c, In c cols -> In c numeric_cols /\ has_column fv c = true) ->
  getitems fv cols = Ok (map (float_column fv) cols).
Proof.
  induction cols as [|c cols IH]; intros H; simpl; [reflexivity|].
  destruct (H c (or_introl eq_refl)) as [Hnum Hc].
  destruct (numeric_cols_float c Hnum) as [f Hf].
  unfold getitem_float. rewrite (getitem_ok float_field fv c f Hc Hf).
  simpl. rewrite IH by (intros c' Hc'; apply H; right; exact Hc').
  simpl. unfold float_column. rewrite Hf. reflexivity.
Qed.

Lemma corr_existing (sqrt : Q -> Q) (fv : DataFrame) :
  corr sqrt fv (existing_numeric fv)
  = Ok {| labels := existing_numeric fv;
          entries :=
            let data := map (float_column fv) (existing_numeric fv) in
            let K := List.length (existing_numeric fv) in
            map (fun i => map (corr_entry sqrt data i) (seq 0 K)) (seq 0 K) |}.
Proof.
  unfold corr. rewrite getitems_ok; [reflexivity|].
  intros c Hc. apply existing_numeric_In. exact Hc.
Qed.

(** C5.  The correlation tab works on the requested numeric columns that
    the view has, in the requested order.  With fewer than two of them it
    shows the "not enough columns" notice and no matrix; with two or more
    it shows the matrix over exactly those columns.  The notice is not the
    "no data" notice, and which of the two cases applies depends on the
    columns alone, not on whether the view has rows. *)
Theorem correlation_columns (sqrt : Q -> Q) (fv : DataFrame) :
  (forall c, In c (existing_numeric fv) <-> In c numeric_cols /\ has_column fv c = true)
  /\ ((List.length (existing_numeric fv) < 2)%nat ->
      tab_corr sqrt fv
      = Ok [ subheader "📈 Correlation Heatmap (Numeric Features)";
             info not_enough_columns ])
  /\ ((2 <= List.length (existing_numeric fv))%nat ->
      exists m,
        corr sqrt fv (existing_numeric fv) = Ok m
        /\ labels m = existing_numeric fv
        /\ tab_corr sqrt fv
           = Ok [ subheader "📈 Correlation Heatmap (Numeric Features)";
                  pyplot (heatmap m);
                  write "**Correlation Matrix (table):**";
                  dataframe_corr m ])
  /\ not_enough_columns <> no_data
  /\ (forall l, existing_numeric {| columns := columns fv; rows := l |}
                = existing_numeric fv).
Proof.
  split; [apply existing_numeric_In|]. split; [|split; [|split]].
  - intros H. unfold tab_corr.
    destruct (2 <=? List.length (existing_numeric fv))%nat eqn:E; [|reflexivity].
    apply Nat.leb_le in E. lia.
  - intros H. unfold tab_corr. apply Nat.leb_le in H. rewrite H.
    rewrite corr_existing. eexists. split; [reflexivity|].
    split; reflexivity.
  - discriminate.
  - reflexivity.
Qed.

Lemma correlation_columns_witness :
  tab_corr Qsqrt {| columns := ["Type"; "Main Genre"; "Author"; "Price"];
                    rows := rows five_books |}
  = Ok [ subheader "📈 Correlation Heatmap (Numeric Features)";
         info not_enough_columns ]
  /\ exists m,
       corr Qsqrt five_books (existing_numeric five_books) = Ok m
       /\ labels m = ["Price"; "Rating"; "No. of People rated"].
Proof.
  split.
  - apply (correlation_columns Qsqrt
             {| columns := ["Type"; "Main Genre"; "Author"; "Price"];
                rows := rows five_books |}).
    simpl. lia.
  - destruct (correlation_columns Qsqrt five_books) as [_ [_ [H _]]].
    destruct H as [m [Hm [Hl _]]]; [simpl; lia|].
    exists m. split; [exact Hm | exact Hl].
Defined.

Lemma complete_pairs_self (xs : Series (option Q)) :
  complete_pairs xs xs = map (fun v => (v, v)) (dropna xs).
Proof.
  induction xs as [|[x|] xs IH]; simpl; [reflexivity | |]; rewrite IH; reflexivity.
Qed.

Lemma Qsum_from (l : list Q) (a : Q) :
  (forall x, In x l -> 0 <= x) -> a <= fold_left Qplus l a.
Proof.
  revert a. induction l as [|x l IH]; intros a H; simpl; [apply Qle_refl|].
  eapply Qle_trans; [|apply IH; intros y Hy; apply H; right; exact Hy].
  rewrite <- (Qplus_0_r a) at 1. apply Qplus_le_r. apply H. left. reflexivity.
Qed.

Lemma square_nonneg (y : Q) : 0 <= y * y.
Proof. unfold Qle, Qmult. simpl. nia. Qed.

Lemma sum_sq_dev_nonneg (vs : list Q) (m : Q) : 0 <= sum_sq_dev vs m.
Proof.
  unfold sum_sq_dev, Qsum. apply Qsum_from.
  intros x Hx. apply in_map_iff in Hx as [v [<- _]]. apply square_nonneg.
Qed.

Lemma pearson_self (sqrt : Q -> Q) (xs : Series (option Q)) :
  pearson sqrt xs xs
  = let vs := dropna xs in
    if (List.length vs <? 1)%nat then None
    else
      let ss := sum_sq_dev vs (Qsum vs / Qlen vs) in
      if Qeq_bool (sqrt (ss * ss)) 0 then None else Some (ss / sqrt (ss * ss)).
Proof.
  unfold pearson, sum_sq_dev, Qlen. rewrite complete_pairs_self.
  rewrite length_map, !map_map. simpl. rewrite map_id. reflexivity.
Qed.

Lemma Qsqrt_sqr (x : Q) : 0 <= x -> Qsqrt (x * x) == x.
Proof.
  destruct x as [a b]. unfold Qle, Qsqrt, Qeq, Qmult. simpl. intros Ha.
  replace (a * a * Z.pos (b * b))%Z with ((a * Z.pos b) * (a * Z.pos b))%Z
    by (rewrite Pos2Z.inj_mul; ring).
  rewrite Z.sqrt_square by nia.
  rewrite Pos2Z.inj_mul. ring.
Qed.


Lemma nth_map_seq {A : Type} (f : nat -> A) (K i : nat) (d : A) :
  nth i (map f (seq 0 K)) d = if (i <? K)%nat then f i else d.
Proof.
  destruct (i <? K)%nat eqn:E.
  - apply Nat.ltb_lt in E.
    rewrite (nth_indep _ d (f 0%nat)) by (rewrite length_map, length_seq; exact E).
    rewrite map_nth, seq_nth by exact E. reflexivity.
  - apply Nat.ltb_ge in E. apply nth_overflow.
    rewrite length_map, length_seq. exact E.
Qed.

Lemma entry_corr (sqrt : Q -> Q) (data : list (Series (option Q)))
    (cols : list string) (i j : nat) :
  let K := List.length cols in
  entry {| labels := cols;
           entries := map (fun i => map (corr_entry sqrt data i) (seq 0 K)) (seq 0 K) |}
    i j
  = if (i <? K)%nat && (j <? K)%nat then corr_entry sqrt data i j else None.
Proof.
  intros K. unfold entry. cbn [entries]. rewrite nth_map_seq.
  destruct (i <? K)%nat; simpl.
  - apply nth_map_seq.
  - destruct j; reflexivity.
Qed.

Lemma nth_map_nth_error {A B : Type} (f : A -> B) (l : list A) (i : nat) (c : A) (d : B) :
  nth_error l i = Some c -> nth i (map f l) d = f c.
Proof.
  intros H. apply nth_error_nth. apply map_nth_error. exact H.
Qed.

Section Correlation.

Variable sqrt : Q -> Q.

Hypothesis sqrt_sqr : forall x, 0 <= x -> sqrt (x * x) == x.

Lemma pearson_diagonal (xs : Series (option Q)) :
  sum_sq_dev (dropna xs) (Qsum (dropna xs) / Qlen (dropna xs)) == 0 ->
  pearson sqrt xs xs = None.
Proof.
  intros Hz. rewrite pearson_self. cbv zeta.
  set (vs := dropna xs) in *.
  set (ss := sum_sq_dev vs (Qsum vs / Qlen vs)) in *.
  pose proof (sqrt_sqr ss (sum_sq_dev_nonneg vs _)) as Hd.
  destruct (List.length vs <? 1)%nat; [reflexivity|].
  assert (Ht : Qeq_bool (sqrt (ss * ss)) 0 = true).
  { apply Qeq_bool_iff. rewrite Hd. exact Hz. }
  rewrite Ht. reflexivity.
Qed.

End Correlation.


(** ** What an empty view shows *)

Lemma empty_rows (fv : DataFrame) : empty fv = true -> rows fv = [].
Proof. unfold empty. destruct (rows fv); [reflexivity | discriminate]. Qed.

Lemma float_column_empty (fv : DataFrame) (c : string) :
  rows fv = [] -> float_column fv c = [].
Proof.
  intros H. unfold float_column. rewrite H. destruct (float_field c); reflexivity.
Qed.

Lemma nth_all_nil {A : Type} (data : list (list A)) (i : nat) :
  (forall x, In x data -> x = []) -> nth i data [] = [].
Proof.
  intros H. destruct (nth_in_or_default i data []) as [Hin | Hd];
    [apply H; exact Hin | exact Hd].
Qed.

Lemma corr_entry_empty (sqrt : Q -> Q) (data : list (Series (option Q))) (i j : nat) :
  (forall x, In x data -> x = []) -> corr_entry sqrt data i j = None.
Proof.
  intros H. unfold corr_entry.
  rewrite !(nth_all_nil data _ H). destruct (j <=? i)%nat; reflexivity.
Qed.

(** C2.  On an empty view the price-by-type table, the top authors and
    the rating-by-genre table are replaced by the "no data" notice, but
    the overview still writes the summary statistics of Price (a count
    of 0 beside missing values) and, with two numeric columns or more,
    the correlation tab still draws a matrix whose every entry is NaN;
    neither shows any notice. *)
Theorem empty_view_signals (argsort : forall A : Type, (A -> Q) -> list A -> list A)
    (sqrt : Q -> Q) (fv : DataFrame) :
  empty fv = true ->
  has_column fv "Price" = true ->
  (2 <= List.length (existing_numeric fv))%nat ->
  (exists out, tab_price argsort fv = Ok out /\ In (info no_data) out)
  /\ (exists out, tab_authors argsort fv = Ok out /\ In (info no_data) out)
  /\ (exists out d,
        tab_overview argsort sqrt fv = Ok out
        /\ (forall msg, ~ In (info msg) out)
        /\ In (write_describe d) out
        /\ d_count d = 0%nat /\ d_mean d = None /\ d_std d = None
        /\ d_min d = None /\ d_max d = None)
  /\ (exists out m,
        tab_corr sqrt fv = Ok out
        /\ (forall msg, ~ In (info msg) out)
        /\ In (dataframe_corr m) out
        /\ labels m = existing_numeric fv
        /\ (forall i j, entry m i j = None)).
Proof.
  intros He Hp Hk. pose proof (empty_rows fv He) as Hrows.
  assert (Hprice : getitem_float fv "Price" = Ok []).
  { unfold getitem_float. rewrite (getitem_ok float_field fv "Price" Price Hp eq_refl).
    rewrite Hrows. reflexivity. }
  split; [|split; [|split]].
  - unfold tab_price. rewrite Hprice, He. eexists. split; [reflexivity|].
    simpl. tauto.
  - unfold tab_authors, tab_authors_top, tab_authors_genre. rewrite He.
    eexists. split; [reflexivity|]. simpl. tauto.
  - unfold tab_overview. rewrite Hprice. eexists. eexists.
    split; [reflexivity|]. split; [|split].
    + intros msg H. simpl in H.
      repeat (destruct H as [H | H]; [discriminate|]). exact H.
    + simpl. do 7 right. left. reflexivity.
    + repeat split; reflexivity.
  - unfold tab_corr. apply Nat.leb_le in Hk. rewrite Hk, corr_existing.
    eexists. eexists. split; [reflexivity|]. split; [|split; [|split]].
    + intros msg H. simpl in H.
      repeat (destruct H as [H | H]; [discriminate|]). exact H.
    + simpl. do 3 right. left. reflexivity.
    + reflexivity.
    + intros i j. cbv zeta.
      rewrite (entry_corr sqrt (map (float_column fv) (existing_numeric fv))
                 (existing_numeric fv)). cbv zeta.
      rewrite corr_entry_empty; [destruct (_ && _); reflexivity|].
      intros x Hx. apply in_map_iff in Hx as [c [<- _]].
      apply float_column_empty. exact Hrows.
Qed.

Lemma empty_view_signals_witness :
  apply_filters five_books ["Fiction"; "Nonfiction"] [] (2, 5) false
  = Ok {| columns := base_columns; rows := [] |}
  /\ exists out d,
       tab_overview stable_argsort Qsqrt {| columns := base_columns; rows := [] |} = Ok out
       /\ (forall msg, ~ In (info msg) out)
       /\ In (write_describe d) out
       /\ d_count d = 0%nat /\ d_mean d = None.
Proof.
  split; [reflexivity|].
  destruct (empty_view_signals stable_argsort Qsqrt
              {| columns := base_columns; rows := [] |} eq_refl eq_refl)
    as [_ [_ [[out [d [Hout [Hinfo [Hd [Hc [Hm _]]]]]]] _]]].
  - simpl. lia.
  - exists out, d. repeat split; assumption.
Defined.

(** ** The script as a whole *)

Lemma bind_ok {A B : Type} (r : result A) (k : A -> result B) (b : B) :
  bind r k = Ok b -> exists a, r = Ok a /\ k a = Ok b.
Proof.
  destruct r as [a | c | v |]; simpl; intros H; [eauto | discriminate ..].
Qed.

(** When the script gets as far as the correlation tab, Price and Rating
    have been read already, so at least two numeric columns exist there:
    the "not enough columns" notice belongs to the tab taken alone. *)
Remark correlation_tab_reached
    (argsort : forall A : Type, (A -> Q) -> list A -> list A) (sqrt : Q -> Q)
    (df : DataFrame) (st sg : list string) (rr : Q * Q) (checkbox : bool)
    (out : list element) :
  dashboard argsort sqrt df st sg rr checkbox = Ok out ->
  exists fv,
    apply_filters df st sg rr (sidebar_exclude_outliers df checkbox) = Ok fv
    /\ (2 <= List.length (existing_numeric fv))%nat.
Proof.
  unfold dashboard. intros H.
  apply bind_ok in H as [fv [Hfv H]]. apply bind_ok in H as [ov [Hov _]].
  exists fv. split; [exact Hfv|].
  pose proof (apply_filters_requires _ _ _ _ _ _ Hfv) as Hreq.
  rewrite (apply_filters_eq df st sg rr _ Hreq) in Hfv.
  assert (Hcols : columns fv = columns df) by (injection Hfv as <-; reflexivity).
  assert (HR : has_column fv "Rating" = true).
  { unfold has_column. rewrite Hcols.
    unfold required_columns in Hreq. apply andb_prop in Hreq as [_ HR]. exact HR. }
  assert (HP : has_column fv "Price" = true).
  { destruct (has_column fv "Price") eqn:E; [reflexivity|].
    unfold tab_overview, getitem_float in Hov.
    rewrite (getitem_missing float_field fv "Price" E) in Hov. discriminate. }
  unfold existing_numeric, numeric_cols. cbn [filter]. rewrite HP, HR.
  destruct (has_column fv "No. of People rated"); simpl; lia.
Qed.

(** * Further properties of the script *)

(** ** The options of the sidebar *)

Lemma insert_key_sorted (k : string) (l : list string) :
  Sorted (fun a b => (a <=? b)%string = true) l ->
  Sorted (fun a b => (a <=? b)%string = true) (insert_key k l).
Proof.
  induction 1 as [|y l Hl IH Hy]; simpl; [repeat constructor|].
  destruct (k <=? y)%string eqn:E.
  - constructor; [constructor; assumption | constructor; exact E].
  - assert (Hyk : (y <=? k)%string = true).
    { destruct (String.leb_total k y) as [H | H]; [congruence | exact H]. }
    constructor; [exact IH|].
    destruct l as [|z l]; simpl; [constructor; exact Hyk|].
    destruct (k <=? z)%string; constructor;
      [exact Hyk | inversion Hy; assumption].
Qed.

Lemma sort_keys_sorted (l : list string) :
  Sorted (fun a b => (a <=? b)%string = true) (sort_keys l).
Proof.
  induction l as [|x l IH]; simpl; [constructor|].
  apply insert_key_sorted. exact IH.
Qed.

(** X1.  The values a multiselect offers for a text column are the
    strings found in that column, each once, in ascending order; a
    missing cell contributes no option. *)
Theorem selectable_options (df : DataFrame) (c : string) (f : Book -> option string) :
  has_column df c = true -> str_field c = Some f ->
  exists options,
    selectable df c = Ok options
    /\ NoDup options
    /\ Sorted (fun a b => (a <=? b)%string = true) options
    /\ (forall v, In v options <-> exists b, In b (rows df) /\ f b = Some v).
Proof.
  intros Hc Hf. eexists. split.
  { unfold selectable, getitem_str. rewrite (getitem_ok str_field df c f Hc Hf).
    reflexivity. }
  split; [|split].
  - apply (Permutation_NoDup (Permutation_sym (sort_keys_perm _))).
    apply unique_NoDup.
  - apply sort_keys_sorted.
  - intros v. split.
    + intros H. apply (Permutation_in _ (sort_keys_perm _)) in H.
      apply unique_In, dropna_In, in_map_iff in H.
      destruct H as [b [Hb Hin]]. eauto.
    + intros [b [Hin Hb]].
      apply (Permutation_in _ (Permutation_sym (sort_keys_perm _))).
      apply unique_In, dropna_In, in_map_iff. eauto.
Qed.

Lemma selectable_options_witness :
  exists options,
    selectable gappy_books "Type" = Ok options /\ options = ["Fiction"].
Proof.
  destruct (selectable_options gappy_books "Type" Type_ eq_refl eq_refl)
    as [options [Hsel _]].
  exists options. split; [exact Hsel|].
  vm_compute in Hsel. congruence.
Defined.

(** ** The default selection *)

Lemma fold_min_le (vs : list Q) (v : Q) :
  let m := fold_left (fun m x => if Qle_bool x m then x else m) vs v in
  m <= v /\ forall x, In x vs -> m <= x.
Proof.
  revert v. induction vs as [|y vs IH]; intros v; simpl.
  - split; [apply Qle_refl | intros x []].
  - destruct (Qle_bool y v) eqn:E.
    + destruct (IH y) as [H1 H2]. apply Qle_bool_iff in E. split.
      * eapply Qle_trans; eassumption.
      * intros x [<- | Hx]; [exact H1 | apply H2; exact Hx].
    + destruct (IH v) as [H1 H2]. apply Qle_bool_false in E. split; [exact H1|].
      intros x [<- | Hx]; [eapply Qle_trans; eassumption | apply H2; exact Hx].
Qed.

Lemma fold_max_ge (vs : list Q) (v : Q) :
  let m := fold_left (fun m x => if Qle_bool m x then x else m) vs v in
  v <= m /\ forall x, In x vs -> x <= m.
Proof.
  revert v. induction vs as [|y vs IH]; intros v; simpl.
  - split; [apply Qle_refl | intros x []].
  - destruct (Qle_bool v y) eqn:E.
    + destruct (IH y) as [H1 H2]. apply Qle_bool_iff in E. split.
      * eapply Qle_trans; eassumption.
      * intros x [<- | Hx]; [exact H1 | apply H2; exact Hx].
    + destruct (IH v) as [H1 H2]. apply Qle_bool_false in E. split; [exact H1|].
      intros x [<- | Hx]; [eapply Qle_trans; eassumption | apply H2; exact Hx].
Qed.

Lemma min_le (s : Series (option Q)) (m x : Q) :
  min s = Some m -> In (Some x) s -> m <= x.
Proof.
  unfold min. intros Hm Hx. apply dropna_In in Hx.
  destruct (dropna s) as [|v vs]; [discriminate|].
  injection Hm as <-. destruct (fold_min_le vs v) as [H1 H2].
  destruct Hx as [<- | Hx]; [exact H1 | apply H2; exact Hx].
Qed.

Lemma max_ge (s : Series (option Q)) (m x : Q) :
  max s = Some m -> In (Some x) s -> x <= m.
Proof.
  unfold max. intros Hm Hx. apply dropna_In in Hx.
  destruct (dropna s) as [|v vs]; [discriminate|].
  injection Hm as <-. destruct (fold_max_ge vs v) as [H1 H2].
  destruct Hx as [<- | Hx]; [exact H1 | apply H2; exact Hx].
Qed.

Lemma fold_min_In (vs : list Q) (v : Q) :
  In (fold_left (fun m x => if Qle_bool x m then x else m) vs v) (v :: vs).
Proof.
  revert v. induction vs as [|y vs IH]; intros v; cbn [fold_left].
  - left. reflexivity.
  - destruct (Qle_bool y v).
    + right. apply IH.
    + destruct (IH v) as [H | H]; [left; exact H | right; right; exact H].
Qed.

Lemma min_In (s : Series (option Q)) (m : Q) : min s = Some m -> In (Some m) s.
Proof.
  unfold min. intros Hm. apply dropna_In.
  destruct (dropna s) as [|v vs]; [discriminate|].
  assert (m = fold_left (fun m x => if Qle_bool x m then x else m) vs v) by congruence.
  subst m. apply fold_min_In.
Qed.

Lemma selectable_selects (df : DataFrame) (c : string) (f : Book -> option string)
    (options : list string) (b : Book) :
  str_field c = Some f -> selectable df c = Ok options -> In b (rows df) ->
  in_selection (f b) options = notna (f b).
Proof.
  intros Hf Hsel Hb. unfold selectable, getitem_str, getitem in Hsel.
  destruct (has_column df c); [|discriminate]. rewrite Hf in Hsel.
  simpl in Hsel. assert (Ho : options = sort_keys (unique (dropna (map f (rows df)))))
    by congruence.
  destruct (f b) as [v|] eqn:E; simpl; [|reflexivity].
  apply existsb_exists. exists v. split; [|apply String.eqb_refl].
  rewrite Ho. apply (Permutation_in _ (Permutation_sym (sort_keys_perm _))).
  apply unique_In, dropna_In, in_map_iff. eauto.
Qed.

(** X2.  With the sidebar left as it opens (every type and every genre
    selected, the outlier box unticked, and the slider, which needs the
    lowest rating to lie below the highest, handing back its default
    range from the one to the other) the filtered view is the table
    without the rows that lack a type, a genre or a rating; a table
    without such rows is shown whole. *)
Theorem default_filters_keep_complete_rows (df : DataFrame)
    (all_types all_genres : list string) (min_rating max_rating : Q)
    (rating_range : Q * Q) :
  selectable df "Type" = Ok all_types ->
  selectable df "Main Genre" = Ok all_genres ->
  rating_bounds df = Ok (Some min_rating, Some max_rating) ->
  slider min_rating max_rating (min_rating, max_rating) = Ok rating_range ->
  min_rating < max_rating
  /\ apply_filters df all_types all_genres rating_range
       (sidebar_exclude_outliers df false)
     = Ok {| columns := columns df; rows := filter complete_row (rows df) |}
  /\ (forallb complete_row (rows df) = true ->
      apply_filters df all_types all_genres rating_range
        (sidebar_exclude_outliers df false)
      = Ok df).
Proof.
  intros Ht Hg Hr Hs.
  unfold slider in Hs. destruct (Qle_bool max_rating min_rating) eqn:Hlt;
    [discriminate|].
  assert (rating_range = (min_rating, max_rating)) by congruence. subst rating_range.
  split.
  { apply Qnot_le_lt. intros Hle. apply Qle_bool_iff in Hle. congruence. }
  clear Hs Hlt.
  assert (HT : has_column df "Type" = true).
  { unfold selectable, getitem_str, getitem in Ht.
    destruct (has_column df "Type"); [reflexivity | discriminate]. }
  assert (HG : has_column df "Main Genre" = true).
  { unfold selectable, getitem_str, getitem in Hg.
    destruct (has_column df "Main Genre"); [reflexivity | discriminate]. }
  assert (HR : has_column df "Rating" = true).
  { unfold rating_bounds, getitem_float, getitem in Hr.
    destruct (has_column df "Rating"); [reflexivity | discriminate]. }
  unfold rating_bounds, getitem_float in Hr.
  rewrite (getitem_ok float_field df "Rating" Rating HR eq_refl) in Hr.
  simpl in Hr.
  assert (Hmin : min (map Rating (rows df)) = Some min_rating) by congruence.
  assert (Hmax : max (map Rating (rows df)) = Some max_rating) by congruence.
  assert (Heo : sidebar_exclude_outliers df false = false).
  { unfold sidebar_exclude_outliers. destruct (has_column df "Price_outlier"); reflexivity. }
  assert (Hview :
    apply_filters df all_types all_genres (min_rating, max_rating)
      (sidebar_exclude_outliers df false)
    = Ok {| columns := columns df; rows := filter complete_row (rows df) |}).
  { rewrite Heo, apply_filters_eq
      by (unfold required_columns; rewrite HT, HG, HR; reflexivity).
    f_equal. f_equal. apply filter_ext_in. intros b Hb.
    unfold spec_keep, spec_base, complete_row. cbn [andb fst snd]. rewrite andb_true_r.
    rewrite (selectable_selects df "Type" Type_ all_types b eq_refl Ht Hb).
    rewrite (selectable_selects df "Main Genre" Main_Genre all_genres b eq_refl Hg Hb).
    f_equal. destruct (Rating b) as [r|] eqn:E; simpl; [|reflexivity].
    assert (Hin : In (Some r) (map Rating (rows df))).
    { rewrite <- E. apply in_map. exact Hb. }
    apply andb_true_iff. split; apply Qle_bool_iff.
    - apply (min_le _ _ _ Hmin Hin).
    - apply (max_ge _ _ _ Hmax Hin). }
  split; [exact Hview|].
  intros Hall. rewrite Hview. destruct df as [cols rws]. cbn [columns rows] in *.
  f_equal. f_equal. rewrite forallb_forall in Hall.
  clear -Hall. induction rws as [|b l IH]; simpl; [reflexivity|].
  rewrite (Hall b (or_introl eq_refl)). f_equal.
  apply IH. intros x Hx. apply Hall. right. exact Hx.
Qed.

Lemma default_filters_keep_complete_rows_witness :
  apply_filters gappy_books ["Fiction"] ["Novel"] (3, 5)
    (sidebar_exclude_outliers gappy_books false)
  = Ok {| columns := columns gappy_books;
          rows := filter complete_row (rows gappy_books) |}
  /\ apply_filters five_books ["Fiction"; "Nonfiction"] ["History"; "Novel"; "Poetry"]
       (2, 5) (sidebar_exclude_outliers five_books false)
     = Ok five_books.
Proof.
  split.
  - apply (default_filters_keep_complete_rows gappy_books ["Fiction"] ["Novel"] 3 5
             (3, 5)); reflexivity.
  - apply (default_filters_keep_complete_rows five_books ["Fiction"; "Nonfiction"]
             ["History"; "Novel"; "Poetry"] 2 5 (2, 5)); reflexivity.
Defined.

(** ** Filtering in steps *)

Lemma in_selection_subset (x : option string) (values values' : list string) :
  (forall v, In v values -> In v values') ->
  in_selection x values = true -> in_selection x values' = true.
Proof.
  intros Hsub H. apply in_selection_iff in H as [v [Hx Hv]].
  apply in_selection_iff. exists v. split; [exact Hx | apply Hsub; exact Hv].
Qed.

Lemma spec_keep_narrow (oc : bool) (st sg st' sg' : list string)
    (lo hi lo' hi' : Q) (eo eo' : bool) (b : Book) :
  (forall t, In t st -> In t st') ->
  (forall g, In g sg -> In g sg') ->
  lo' <= lo -> hi <= hi' -> (eo' = true -> eo = true) ->
  spec_keep oc st sg (lo, hi) eo b = true ->
  spec_keep oc st' sg' (lo', hi') eo' b = true.
Proof.
  intros Ht Hg Hlo Hhi Heo H. apply spec_keep_iff in H. apply spec_keep_iff.
  destruct H as [[t [Et Hint]] [[g [Eg Hing]] [[r [Er [H1 H2]]] Ho]]].
  cbn [fst snd] in *. repeat split.
  - exists t. auto.
  - exists g. auto.
  - exists r. split; [exact Er|].
    split; eapply Qle_trans; eassumption.
  - intros E1 E2. apply Ho; [apply Heo; exact E1 | exact E2].
Qed.

Lemma has_column_frame (df : DataFrame) (l : list Book) (c : string) :
  has_column {| columns := columns df; rows := l |} c = has_column df c.
Proof. reflexivity. Qed.

(** X3.  Narrowing the selection (fewer types, fewer genres, a tighter
    rating range, the outlier box ticked) can be done on the view already
    filtered: it gives the view that the narrow selection gives on the
    table, which holds no row the wide view lacks and so has no more rows. *)
Theorem narrowing_refilters (df wide : DataFrame) (st sg st' sg' : list string)
    (lo hi lo' hi' : Q) (eo eo' : bool) :
  (forall t, In t st -> In t st') ->
  (forall g, In g sg -> In g sg') ->
  lo' <= lo -> hi <= hi' -> (eo' = true -> eo = true) ->
  apply_filters df st' sg' (lo', hi') eo' = Ok wide ->
  exists narrow,
    apply_filters df st sg (lo, hi) eo = Ok narrow
    /\ apply_filters wide st sg (lo, hi) eo = Ok narrow
    /\ (forall b, In b (rows narrow) -> In b (rows wide))
    /\ (len narrow <= len wide)%nat.
Proof.
  intros Ht Hg Hlo Hhi Heo Hwide.
  pose proof (apply_filters_requires _ _ _ _ _ _ Hwide) as Hreq.
  rewrite (apply_filters_eq df st' sg' (lo', hi') eo' Hreq) in Hwide.
  assert (Hw : wide = {| columns := columns df;
                         rows := filter (spec_keep (has_column df "Price_outlier")
                                           st' sg' (lo', hi') eo') (rows df) |})
    by congruence.
  clear Hwide. subst wide.
  assert (Hsame :
    filter (spec_keep (has_column df "Price_outlier") st sg (lo, hi) eo)
      (filter (spec_keep (has_column df "Price_outlier") st' sg' (lo', hi') eo') (rows df))
    = filter (spec_keep (has_column df "Price_outlier") st sg (lo, hi) eo) (rows df)).
  { rewrite filter_twice. apply filter_ext. intros b.
    destruct (spec_keep _ st sg (lo, hi) eo b) eqn:E; [|apply andb_false_r].
    rewrite (spec_keep_narrow _ st sg st' sg' lo hi lo' hi' eo eo' b Ht Hg Hlo Hhi Heo E).
    reflexivity. }
  eexists. split; [apply apply_filters_eq; exact Hreq|].
  split; [|split].
  - rewrite apply_filters_eq by (rewrite required_columns_frame; exact Hreq).
    cbn [columns rows]. rewrite has_column_frame, Hsame. reflexivity.
  - cbn [rows]. intros b Hb. apply filter_In in Hb as [Hin Hk].
    apply filter_In. split; [exact Hin|].
    apply (spec_keep_narrow _ st sg st' sg' lo hi lo' hi' eo eo' b Ht Hg Hlo Hhi Heo Hk).
  - unfold len. cbn [rows]. rewrite <- Hsame. apply filter_length_le.
Qed.

Lemma narrowing_refilters_witness :
  exists narrow,
    apply_filters five_books ["Fiction"] ["Novel"] (4, 5) false = Ok narrow
    /\ apply_filters
         {| columns := columns five_books;
            rows := filter (spec_keep false ["Fiction"; "Nonfiction"] ["Novel"; "History"]
                              (3, 5) false) (rows five_books) |}
         ["Fiction"] ["Novel"] (4, 5) false = Ok narrow
    /\ len narrow = 2%nat.
Proof.
  destruct (narrowing_refilters five_books
              {| columns := columns five_books;
                 rows := filter (spec_keep false ["Fiction"; "Nonfiction"] ["Novel"; "History"]
                                   (3, 5) false) (rows five_books) |}
              ["Fiction"] ["Novel"] ["Fiction"; "Nonfiction"] ["Novel"; "History"]
              4 5 3 5 false false)
    as [narrow [H1 [H2 _]]].
  - simpl. tauto.
  - simpl. tauto.
  - unfold Qle. simpl. lia.
  - apply Qle_refl.
  - intros H. exact H.
  - reflexivity.
  - exists narrow. split; [exact H1|]. split; [exact H2|].
    vm_compute in H1. injection H1 as <-. reflexivity.
Defined.

(** X4.  Two selections can be applied one after the other in either
    order: both orders succeed with the same view, which holds the rows
    common to the two views taken alone. *)
Theorem filters_commute (df a b : DataFrame) (st1 sg1 st2 sg2 : list string)
    (rr1 rr2 : Q * Q) (eo1 eo2 : bool) :
  apply_filters df st1 sg1 rr1 eo1 = Ok a ->
  apply_filters df st2 sg2 rr2 eo2 = Ok b ->
  exists c,
    apply_filters a st2 sg2 rr2 eo2 = Ok c
    /\ apply_filters b st1 sg1 rr1 eo1 = Ok c
    /\ (forall x, In x (rows c) <-> In x (rows a) /\ In x (rows b)).
Proof.
  intros Ha Hb.
  pose proof (apply_filters_requires _ _ _ _ _ _ Ha) as Hreq.
  rewrite (apply_filters_eq df st1 sg1 rr1 eo1 Hreq) in Ha.
  rewrite (apply_filters_eq df st2 sg2 rr2 eo2 Hreq) in Hb.
  assert (Ea : a = {| columns := columns df;
                      rows := filter (spec_keep (has_column df "Price_outlier")
                                        st1 sg1 rr1 eo1) (rows df) |}) by congruence.
  assert (Eb : b = {| columns := columns df;
                      rows := filter (spec_keep (has_column df "Price_outlier")
                                        st2 sg2 rr2 eo2) (rows df) |}) by congruence.
  clear Ha Hb. subst a b.
  eexists. split; [|split].
  - rewrite apply_filters_eq by (rewrite required_columns_frame; exact Hreq).
    cbn [columns rows]. rewrite has_column_frame, filter_twice. reflexivity.
  - rewrite apply_filters_eq by (rewrite required_columns_frame; exact Hreq).
    cbn [columns rows]. rewrite has_column_frame, filter_twice.
    f_equal. f_equal. apply filter_ext. intros x. apply andb_comm.
  - intros x. cbn [rows]. rewrite !filter_In, andb_true_iff. tauto.
Qed.

Lemma filters_commute_witness :
  exists c,
    apply_filters
      {| columns := columns five_books;
         rows := filter (spec_keep false ["Fiction"] ["Novel"; "Poetry"] (2, 5) false)
                   (rows five_books) |}
      ["Fiction"; "Nonfiction"] ["Novel"] (4, 5) false = Ok c
    /\ apply_filters
         {| columns := columns five_books;
            rows := filter (spec_keep false ["Fiction"; "Nonfiction"] ["Novel"] (4, 5) false)
                      (rows five_books) |}
         ["Fiction"] ["Novel"; "Poetry"] (2, 5) false = Ok c.
Proof.
  destruct (filters_commute five_books _ _ ["Fiction"] ["Novel"; "Poetry"]
              ["Fiction"; "Nonfiction"] ["Novel"] (2, 5) (4, 5) false false
              eq_refl eq_refl)
    as [c [H1 [H2 _]]].
  exists c. split; [exact H1 | exact H2].
Defined.

(** ** Excluding price outliers *)

(** X5.  With the outlier column in the table and the box ticked, the
    view is the unticked view without its flagged rows, so it holds no
    flagged row. *)
Theorem outliers_excluded (df : DataFrame) (st sg : list string) (rr : Q * Q) :
  required_columns df = true ->
  has_column df "Price_outlier" = true ->
  sidebar_exclude_outliers df true = true
  /\ exists unticked ticked,
       apply_filters df st sg rr false = Ok unticked
       /\ apply_filters df st sg rr true = Ok ticked
       /\ rows ticked = filter (fun b => negb (Price_outlier b)) (rows unticked)
       /\ Forall (fun b => Price_outlier b = false) (rows ticked).
Proof.
  intros Hreq Ho. split.
  { unfold sidebar_exclude_outliers. rewrite Ho. reflexivity. }
  eexists. eexists.
  split; [apply apply_filters_eq; exact Hreq|].
  split; [apply apply_filters_eq; exact Hreq|].
  cbn [rows]. rewrite Ho. split.
  - rewrite filter_twice. apply filter_ext. intros b.
    unfold spec_keep. cbn [andb]. rewrite andb_true_r. reflexivity.
  - apply Forall_forall. intros b Hb. apply filter_In in Hb as [_ Hk].
    unfold spec_keep in Hk. cbn [andb] in Hk.
    apply andb_prop in Hk as [_ Hk]. apply negb_true_iff. exact Hk.
Qed.

Lemma outliers_excluded_witness :
  exists unticked ticked,
    apply_filters gappy_books ["Fiction"] ["Novel"] (3, 5) false = Ok unticked
    /\ apply_filters gappy_books ["Fiction"] ["Novel"] (3, 5) true = Ok ticked
    /\ len unticked = 3%nat /\ len ticked = 2%nat.
Proof.
  destruct (outliers_excluded gappy_books ["Fiction"] ["Novel"] (3, 5) eq_refl eq_refl)
    as [_ [unticked [ticked [H1 [H2 _]]]]].
  exists unticked, ticked. split; [exact H1|]. split; [exact H2|].
  vm_compute in H1, H2. injection H1 as <-. injection H2 as <-.
  split; reflexivity.
Defined.

(** ** Missing columns *)

Lemma apply_filters_missing (df : DataFrame) (st sg : list string) (rr : Q * Q)
    (eo : bool) :
  (has_column df "Type" = false -> apply_filters df st sg rr eo = KeyError "Type")
  /\ (has_column df "Type" = true -> has_column df "Main Genre" = false ->
      apply_filters df st sg rr eo = KeyError "Main Genre")
  /\ (has_column df "Type" = true -> has_column df "Main Genre" = true ->
      has_column df "Rating" = false ->
      apply_filters df st sg rr eo = KeyError "Rating").
Proof.
  unfold apply_filters, getitem_str, getitem_float. split; [|split].
  - intros HT. rewrite (getitem_missing str_field (copy df) "Type" HT). reflexivity.
  - intros HT HG.
    rewrite (getitem_ok str_field (copy df) "Type" Type_ HT eq_refl).
    cbn [bind]. rewrite (getitem_missing str_field (copy df) "Main Genre" HG).
    reflexivity.
  - intros HT HG HR.
    rewrite (getitem_ok str_field (copy df) "Type" Type_ HT eq_refl).
    rewrite (getitem_ok str_field (copy df) "Main Genre" Main_Genre HG eq_refl).
    cbn [bind]. rewrite (getitem_missing float_field (copy df) "Rating" HR).
    reflexivity.
Qed.

(** X6.  A table that lacks one of the columns Type, Main Genre or
    Rating makes the script raise a [KeyError] that names the first of
    them that is missing, whatever the selection.  A table that has the
    three but no Price column, and whose lowest rating lies below its
    highest so that the slider is accepted, makes it raise
    [KeyError] for Price.  The statement is about the exception alone,
    not about what is on the page when it is raised. *)
Theorem missing_column_raises
    (argsort : forall A : Type, (A -> Q) -> list A -> list A) (sqrt : Q -> Q)
    (df : DataFrame) (st sg : list string) (rr : Q * Q) (checkbox : bool) :
  (has_column df "Type" = false ->
   script argsort sqrt df st sg rr checkbox = KeyError "Type")
  /\ (has_column df "Type" = true -> has_column df "Main Genre" = false ->
      script argsort sqrt df st sg rr checkbox = KeyError "Main Genre")
  /\ (has_column df "Type" = true -> has_column df "Main Genre" = true ->
      has_column df "Rating" = false ->
      script argsort sqrt df st sg rr checkbox = KeyError "Rating")
  /\ (forall min_rating max_rating,
      rating_bounds df = Ok (Some min_rating, Some max_rating) ->
      slider min_rating max_rating (min_rating, max_rating)
        = Ok (min_rating, max_rating) ->
      required_columns df = true -> has_column df "Price" = false ->
      script argsort sqrt df st sg rr checkbox = KeyError "Price").
Proof.
  unfold script, selectable, rating_bounds, getitem_str, getitem_float.
  split; [|split; [|split]].
  - intros HT. rewrite (getitem_missing str_field df "Type" HT). reflexivity.
  - intros HT HG.
    rewrite (getitem_ok str_field df "Type" Type_ HT eq_refl).
    cbn [bind]. rewrite (getitem_missing str_field df "Main Genre" HG). reflexivity.
  - intros HT HG HR.
    rewrite (getitem_ok str_field df "Type" Type_ HT eq_refl).
    rewrite (getitem_ok str_field df "Main Genre" Main_Genre HG eq_refl).
    cbn [bind]. rewrite (getitem_missing float_field df "Rating" HR). reflexivity.
  - intros min_rating max_rating _ _ Hreq HP.
    pose proof Hreq as Hreq'. unfold required_columns in Hreq'.
    apply andb_prop in Hreq' as [H HR]. apply andb_prop in H as [HT HG].
    rewrite (getitem_ok str_field df "Type" Type_ HT eq_refl).
    rewrite (getitem_ok str_field df "Main Genre" Main_Genre HG eq_refl).
    rewrite (getitem_ok float_field df "Rating" Rating HR eq_refl).
    cbn [bind]. unfold dashboard.
    rewrite (apply_filters_eq df st sg rr _ Hreq). cbn [bind].
    unfold tab_overview, getitem_float.
    rewrite getitem_missing by (rewrite has_column_frame; exact HP).
    reflexivity.
Qed.

Lemma missing_column_raises_witness :
  script stable_argsort Qsqrt
    {| columns := ["Type"; "Main Genre"; "Author"; "Price"]; rows := rows five_books |}
    ["Fiction"] ["Novel"] (4, 5) false = KeyError "Rating"
  /\ script stable_argsort Qsqrt
       {| columns := ["Type"; "Main Genre"; "Author"; "Rating"]; rows := rows five_books |}
       ["Fiction"] ["Novel"] (4, 5) false = KeyError "Price".
Proof.
  destruct (missing_column_raises stable_argsort Qsqrt
              {| columns := ["Type"; "Main Genre"; "Author"; "Price"];
                 rows := rows five_books |} ["Fiction"] ["Novel"] (4, 5) false)
    as [_ [_ [H3 _]]].
  destruct (missing_column_raises stable_argsort Qsqrt
              {| columns := ["Type"; "Main Genre"; "Author"; "Rating"];
                 rows := rows five_books |} ["Fiction"] ["Novel"] (4, 5) false)
    as [_ [_ [_ H4]]].
  split; [apply H3 | apply (H4 2 5)]; reflexivity.
Defined.

(** ** Summary statistics *)

Lemma sorted_nth_le (vs : list Q) (i j : nat) (d : Q) :
  StronglySorted Qle vs -> (i <= j)%nat -> (j < List.length vs)%nat ->
  nth i vs d <= nth j vs d.
Proof.
  intros H. revert i j. induction H as [|x l Hl IH Hx]; intros i j Hij Hj.
  - simpl in Hj. lia.
  - destruct i as [|i], j as [|j]; simpl in *; try lia.
    + apply Qle_refl.
    + rewrite Forall_forall in Hx. apply Hx. apply nth_In. lia.
    + apply IH; lia.
Qed.

Lemma floor_frac (pos : Q) :
  0 <= pos - inject_Z (Qfloor pos) /\ pos - inject_Z (Qfloor pos) <= 1.
Proof.
  pose proof (Qfloor_le pos) as H1. pose proof (Qlt_floor pos) as H2.
  rewrite inject_Z_plus in H2. change (inject_Z 1) with 1 in H2.
  split; lra.
Qed.

Lemma floor_rank (pos : Q) (n : nat) :
  0 <= pos -> pos <= inject_Z (Z.of_nat n) ->
  (0 <= Qfloor pos)%Z /\ (Z.to_nat (Qfloor pos) <= n)%nat.
Proof.
  intros H0 Hn.
  assert (H1 : (0 <= Qfloor pos)%Z).
  { change 0%Z with (Qfloor 0). apply Qfloor_resp_le. exact H0. }
  split; [exact H1|].
  apply Qfloor_resp_le in Hn. rewrite Qfloor_Z in Hn. lia.
Qed.

Lemma interpolate_between (vs : list Q) (v0 pos : Q) :
  StronglySorted Qle vs ->
  (Z.to_nat (Qfloor pos) < List.length vs)%nat ->
  let a := nth (Z.to_nat (Qfloor pos)) vs v0 in
  let b := nth (S (Z.to_nat (Qfloor pos))) vs a in
  a <= b /\ a <= interpolate vs v0 pos /\ interpolate vs v0 pos <= b.
Proof.
  intros Hs Hlo a b. unfold interpolate. fold a. fold b.
  assert (Hab : a <= b).
  { unfold b. destruct (Nat.lt_ge_cases (S (Z.to_nat (Qfloor pos))) (List.length vs))
      as [Hlt | Hge].
    - rewrite (nth_indep vs a v0 Hlt). apply sorted_nth_le; [exact Hs | lia | exact Hlt].
    - rewrite (nth_overflow vs a Hge). apply Qle_refl. }
  destruct (floor_frac pos) as [F0 F1].
  set (t := pos - inject_Z (Qfloor pos)) in *.
  assert (Hd : 0 <= b - a) by lra.
  split; [exact Hab|]. split; nra.
Qed.

Lemma interpolate_mono (vs : list Q) (v0 p1 p2 : Q) :
  StronglySorted Qle vs -> 0 <= p1 -> p1 <= p2 ->
  (Z.to_nat (Qfloor p2) < List.length vs)%nat ->
  interpolate vs v0 p1 <= interpolate vs v0 p2.
Proof.
  intros Hs H0 H12 Hlo2.
  assert (F1 : (0 <= Qfloor p1)%Z).
  { change 0%Z with (Qfloor 0). apply Qfloor_resp_le. exact H0. }
  pose proof (Qfloor_resp_le _ _ H12) as F12.
  assert (Hlo1 : (Z.to_nat (Qfloor p1) < List.length vs)%nat) by lia.
  destruct (interpolate_between vs v0 p1 Hs Hlo1) as [Hab1 [_ Hu1]].
  destruct (interpolate_between vs v0 p2 Hs Hlo2) as [Hab2 [Hl2 _]].
  destruct (Z.eq_dec (Qfloor p1) (Qfloor p2)) as [E | NE].
  - unfold interpolate. rewrite <- E in *.
    set (a := nth (Z.to_nat (Qfloor p1)) vs v0) in *.
    set (b := nth (S (Z.to_nat (Qfloor p1))) vs a) in *.
    assert (Hd : 0 <= b - a) by lra.
    set (f := inject_Z (Qfloor p1)) in *. nra.
  - eapply Qle_trans; [exact Hu1|]. eapply Qle_trans; [|exact Hl2].
    assert (Hlt : (S (Z.to_nat (Qfloor p1)) < List.length vs)%nat) by lia.
    rewrite (nth_indep vs _ v0 Hlt).
    apply sorted_nth_le; [exact Hs | lia | exact Hlo2].
Qed.

Lemma Qlen_cons {A : Type} (x : A) (l : list A) : Qlen (x :: l) == Qlen l + 1.
Proof.
  unfold Qlen. cbn [List.length]. rewrite Nat2Z.inj_succ. unfold Z.succ.
  rewrite inject_Z_plus. reflexivity.
Qed.

Lemma Qlen_nonneg {A : Type} (l : list A) : 0 <= Qlen l.
Proof.
  unfold Qlen. change 0 with (inject_Z 0). rewrite <- Zle_Qle. lia.
Qed.

Lemma Qsum_between (vs : list Q) (lo hi a : Q) :
  (forall x, In x vs -> lo <= x /\ x <= hi) ->
  a + Qlen vs * lo <= fold_left Qplus vs a /\ fold_left Qplus vs a <= a + Qlen vs * hi.
Proof.
  revert a. induction vs as [|v vs IH]; intros a H.
  - change (Qlen (@nil Q)) with 0. cbn [fold_left]. split; lra.
  - cbn [fold_left].
    destruct (IH (a + v) (fun x Hx => H x (or_intror Hx))) as [I1 I2].
    destruct (H v (or_introl eq_refl)) as [V1 V2].
    pose proof (Qlen_cons v vs) as E. pose proof (Qlen_nonneg vs) as N.
    set (L := Qlen vs) in *. set (L' := Qlen (v :: vs)) in *.
    split; nra.
Qed.

Section Describe.

Variable argsort : forall A : Type, (A -> Q) -> list A -> list A.

Hypothesis argsort_perm :
  forall (A : Type) (key : A -> Q) (l : list A), Permutation (argsort A key l) l.

Hypothesis argsort_sorted :
  forall (A : Type) (key : A -> Q) (l : list A),
    Sorted (fun a b => key a <= key b) (argsort A key l).

Lemma sorted_values (s : Series (option Q)) :
  StronglySorted Qle (argsort Q (fun v => v) (dropna s)).
Proof.
  apply Sorted_StronglySorted.
  - intros x y z Hxy Hyz. eapply Qle_trans; eassumption.
  - exact (argsort_sorted Q (fun v => v) (dropna s)).
Qed.

Lemma quantile_interpolate (s : Series (option Q)) (q : Q) :
  quantile argsort s q
  = match argsort Q (fun v => v) (dropna s) with
    | [] => None
    | v0 :: t => Some (interpolate (v0 :: t) v0 (q * (Qlen (v0 :: t) - 1)))
    end.
Proof. unfold quantile. destruct (argsort Q (fun v => v) (dropna s)); reflexivity. Qed.

Lemma quantile_rank (v0 : Q) (t : list Q) (q : Q) :
  0 <= q -> q <= 1 ->
  0 <= q * (Qlen (v0 :: t) - 1)
  /\ (Z.to_nat (Qfloor (q * (Qlen (v0 :: t) - 1))) < List.length (v0 :: t))%nat.
Proof.
  intros H0 H1. pose proof (Qlen_cons v0 t) as E. pose proof (Qlen_nonneg t) as N.
  assert (Hp : 0 <= q * (Qlen (v0 :: t) - 1)) by nra.
  split; [exact Hp|].
  assert (Hu : q * (Qlen (v0 :: t) - 1) <= inject_Z (Z.of_nat (List.length t))).
  { change (inject_Z (Z.of_nat (List.length t))) with (Qlen t).
    set (L := Qlen t) in *. set (L' := Qlen (v0 :: t)) in *. clearbody L L'.
    assert (0 <= (1 - q) * L) by (apply Qmult_le_0_compat; lra).
    assert (q * L' == q * L + q) by (rewrite E; ring). lra. }
  destruct (floor_rank _ _ Hp Hu) as [_ Hr]. cbn [List.length]. lia.
Qed.

Lemma quantile_some (s : Series (option Q)) (q : Q) :
  dropna s <> [] -> exists x, quantile argsort s q = Some x.
Proof.
  intros Hne. rewrite quantile_interpolate.
  destruct (argsort Q (fun v => v) (dropna s)) as [|v0 t] eqn:E; [|eauto].
  exfalso. apply Hne. pose proof (argsort_perm Q (fun v => v) (dropna s)) as P.
  rewrite E in P. apply Permutation_nil. exact P.
Qed.

Lemma quantile_mono (s : Series (option Q)) (q q' x x' : Q) :
  0 <= q -> q <= q' -> q' <= 1 ->
  quantile argsort s q = Some x -> quantile argsort s q' = Some x' -> x <= x'.
Proof.
  intros H0 Hqq H1. rewrite !quantile_interpolate.
  pose proof (sorted_values s) as Hs.
  destruct (argsort Q (fun v => v) (dropna s)) as [|v0 t]; [discriminate|].
  intros Hx Hx'. injection Hx as <-. injection Hx' as <-.
  destruct (quantile_rank v0 t q H0 ltac:(lra)) as [Hp _].
  destruct (quantile_rank v0 t q' ltac:(lra) H1) as [_ Hr].
  apply interpolate_mono; [exact Hs | exact Hp | | exact Hr].
  pose proof (Qlen_cons v0 t) as E. pose proof (Qlen_nonneg t) as N.
  assert (0 <= (q' - q) * (Qlen (v0 :: t) - 1)) by (apply Qmult_le_0_compat; lra).
  lra.
Qed.

Lemma quantile_within (s : Series (option Q)) (q x a b : Q) :
  0 <= q -> q <= 1 ->
  quantile argsort s q = Some x -> min s = Some a -> max s = Some b ->
  a <= x /\ x <= b.
Proof.
  intros H0 H1. rewrite quantile_interpolate.
  pose proof (sorted_values s) as Hs.
  pose proof (argsort_perm Q (fun v => v) (dropna s)) as P.
  destruct (argsort Q (fun v => v) (dropna s)) as [|v0 t]; [discriminate|].
  intros Hx Ha Hb. injection Hx as <-.
  destruct (quantile_rank v0 t q H0 H1) as [_ Hr].
  destruct (interpolate_between (v0 :: t) v0 _ Hs Hr) as [_ [Hl Hu]].
  set (lo := Z.to_nat (Qfloor (q * (Qlen (v0 :: t) - 1)))) in *.
  assert (Hin : forall y, In y (v0 :: t) -> a <= y /\ y <= b).
  { intros y Hy. apply (Permutation_in _ P) in Hy. apply dropna_In in Hy.
    split; [apply (min_le s a y Ha Hy) | apply (max_ge s b y Hb Hy)]. }
  assert (Hlo : In (nth lo (v0 :: t) v0) (v0 :: t)) by (apply nth_In; exact Hr).
  split.
  - eapply Qle_trans; [|exact Hl]. apply Hin. exact Hlo.
  - eapply Qle_trans; [exact Hu|].
    destruct (nth_in_or_default (S lo) (v0 :: t) (nth lo (v0 :: t) v0)) as [Hi | Hd].
    + apply Hin. exact Hi.
    + rewrite Hd. apply Hin. exact Hlo.
Qed.

(** X7.  The summary of a column of non-negative numbers (a price, a
    rating, a number of raters) with at least one value counts the cells
    that hold a value and gives a minimum, three quartiles and a maximum
    with 0 <= min <= 25% <= 50% <= 75% <= max. *)
Theorem describe_ordered (sqrt : Q -> Q) (s : Series (option Q)) :
  dropna s <> [] ->
  (forall x, In (Some x) s -> 0 <= x) ->
  exists lowest q1 q2 q3 highest,
    d_count (describe argsort sqrt s) = List.length (dropna s)
    /\ d_min (describe argsort sqrt s) = Some lowest
    /\ d_25 (describe argsort sqrt s) = Some q1
    /\ d_50 (describe argsort sqrt s) = Some q2
    /\ d_75 (describe argsort sqrt s) = Some q3
    /\ d_max (describe argsort sqrt s) = Some highest
    /\ 0 <= lowest
    /\ lowest <= q1 /\ q1 <= q2 /\ q2 <= q3 /\ q3 <= highest.
Proof.
  intros Hne Hpos. cbn [describe d_count d_min d_25 d_50 d_75 d_max].
  destruct (quantile_some s (1 # 4) Hne) as [q1 E1].
  destruct (quantile_some s (1 # 2) Hne) as [q2 E2].
  destruct (quantile_some s (3 # 4) Hne) as [q3 E3].
  assert (Emin : exists a, min s = Some a).
  { unfold min. destruct (dropna s); [contradiction | eauto]. }
  assert (Emax : exists b, max s = Some b).
  { unfold max. destruct (dropna s); [contradiction | eauto]. }
  destruct Emin as [a Ea], Emax as [b Eb].
  exists a, q1, q2, q3, b.
  destruct (quantile_within s (1 # 4) q1 a b ltac:(lra) ltac:(lra) E1 Ea Eb) as [L1 _].
  destruct (quantile_within s (3 # 4) q3 a b ltac:(lra) ltac:(lra) E3 Ea Eb) as [_ U3].
  pose proof (quantile_mono s (1 # 4) (1 # 2) q1 q2 ltac:(lra) ltac:(lra) ltac:(lra) E1 E2).
  pose proof (quantile_mono s (1 # 2) (3 # 4) q2 q3 ltac:(lra) ltac:(lra) ltac:(lra) E2 E3).
  pose proof (Hpos a (min_In s a Ea)).
  repeat split; assumption || reflexivity.
Qed.

End Describe.

Lemma describe_ordered_witness :
  exists lowest q1 q2 q3 highest,
    d_min (describe stable_argsort Qsqrt (map Price (rows gappy_books))) = Some lowest
    /\ d_25 (describe stable_argsort Qsqrt (map Price (rows gappy_books))) = Some q1
    /\ d_50 (describe stable_argsort Qsqrt (map Price (rows gappy_books))) = Some q2
    /\ d_75 (describe stable_argsort Qsqrt (map Price (rows gappy_books))) = Some q3
    /\ d_max (describe stable_argsort Qsqrt (map Price (rows gappy_books))) = Some highest
    /\ lowest <= q1 /\ q3 <= highest.
Proof.
  destruct (describe_ordered stable_argsort stable_argsort_perm stable_argsort_sorted
              Qsqrt (map Price (rows gappy_books)))
    as (a & q1 & q2 & q3 & b & _ & H1 & H2 & H3 & H4 & H5 & _ & H7 & _ & _ & H8).
  - simpl. discriminate.
  - intros x Hx. simpl in Hx.
    repeat (destruct Hx as [Hx | Hx];
            [first [discriminate | injection Hx as <-; discriminate]|]).
    destruct Hx.
  - exists a, q1, q2, q3, b. repeat split; assumption.
Defined.

(** ** Group means *)

Lemma mean_some (s : Series (option Q)) :
  dropna s <> [] -> exists m, mean s = Some m.
Proof. unfold mean. destruct (dropna s); [contradiction | eauto]. Qed.

Section GroupMeans.

Variable argsort : forall A : Type, (A -> Q) -> list A -> list A.

Hypothesis argsort_perm :
  forall (A : Type) (key : A -> Q) (l : list A), Permutation (argsort A key l) l.

Lemma mean_by_group_entries (fv : DataFrame) (col value_col : string)
    (label : Book -> option string) (value : Book -> option Q)
    (out : list (string * option Q)) :
  str_field col = Some label -> float_field value_col = Some value ->
  mean_by_group argsort fv col value_col = Ok out ->
  forall g m, In (g, m) out ->
    m = mean (map value (filter (fun b => is_label g (label b)) (rows fv)))
    /\ exists b, In b (rows fv) /\ label b = Some g.
Proof.
  intros Hl Hf Hout g m Hin.
  unfold mean_by_group, groupby_mean, getitem_str, getitem_float, getitem in Hout.
  destruct (has_column fv col); [|discriminate]. rewrite Hl in Hout. cbn [bind] in Hout.
  destruct (has_column fv value_col); [|discriminate]. rewrite Hf in Hout.
  cbn [bind] in Hout.
  assert (E : out = sort_values_desc argsort snd
                      (map (fun k => (k, mean (group_values k (map label (rows fv))
                                                 (map value (rows fv)))))
                         (sort_keys (unique (dropna (map label (rows fv)))))))
    by congruence.
  subst out. clear Hout.
  apply (Permutation_in _ (sort_values_desc_perm argsort argsort_perm snd _)) in Hin.
  apply in_map_iff in Hin as [k [Heq Hk]]. inversion Heq; subst k. clear Heq.
  rewrite group_values_rows. split; [reflexivity|].
  apply (Permutation_in _ (sort_keys_perm _)) in Hk.
  apply unique_In, dropna_In, in_map_iff in Hk.
  destruct Hk as [b [Hb Hinb]]. eauto.
Qed.

(** X9.  In a filtered view the table of average ratings lists only
    genres that are selected, and the average of each of them is a
    number, not NaN: every row of the view holds a rating. *)
Theorem genre_rating_selected (df fv : DataFrame) (st sg : list string)
    (rr : Q * Q) (eo : bool) (out : list (string * option Q)) (g : string)
    (m : option Q) :
  apply_filters df st sg rr eo = Ok fv ->
  mean_by_group argsort fv "Main Genre" "Rating" = Ok out ->
  In (g, m) out ->
  In g sg /\ exists r, m = Some r.
Proof.
  intros Hfv Hout Hin.
  destruct (mean_by_group_entries fv "Main Genre" "Rating" Main_Genre Rating out
              eq_refl eq_refl Hout g m Hin) as [Hm [b [Hb Hg]]].
  pose proof (apply_filters_requires _ _ _ _ _ _ Hfv) as Hreq.
  rewrite (apply_filters_eq df st sg rr eo Hreq) in Hfv.
  assert (Hrows : rows fv = filter (spec_keep (has_column df "Price_outlier")
                                      st sg rr eo) (rows df))
    by (injection Hfv as <-; reflexivity).
  assert (Hkept : forall x, In x (rows fv) ->
                    Satisfies (has_column df "Price_outlier") st sg rr eo x).
  { intros x Hx. rewrite Hrows in Hx. apply filter_In in Hx as [_ Hk].
    apply spec_keep_iff in Hk. exact Hk. }
  split.
  - destruct (Hkept b Hb) as [_ [[g' [Eg Hsel]] _]].
    rewrite Hg in Eg. injection Eg as <-. exact Hsel.
  - set (cells := map Rating (filter (fun b => is_label g (Main_Genre b)) (rows fv))) in *.
    assert (Hne : dropna cells <> []).
    { destruct (Hkept b Hb) as [_ [_ [[r [Er _]] _]]].
      assert (Hc : In (Some r) cells).
      { unfold cells. rewrite <- Er. apply in_map. apply filter_In.
        split; [exact Hb|]. rewrite Hg. simpl. apply String.eqb_refl. }
      apply dropna_In in Hc. intros E. rewrite E in Hc. exact Hc. }
    destruct (mean_some cells Hne) as [r Er].
    exists r. congruence.
Qed.

End GroupMeans.

Lemma genre_rating_selected_witness :
  In "Novel" ["Novel"; "Poetry"] /\ exists r, Some (17 # 4) = Some r.
Proof.
  apply (genre_rating_selected stable_argsort stable_argsort_perm five_books
           {| columns := columns five_books;
              rows := filter (spec_keep false ["Fiction"] ["Novel"; "Poetry"] (4, 5) false)
                        (rows five_books) |}
           ["Fiction"] ["Novel"; "Poetry"] (4, 5) false
           [("Poetry", Some 5); ("Novel", Some (17 # 4))] "Novel" (Some (17 # 4))).
  - reflexivity.
  - reflexivity.
  - right. left. reflexivity.
Defined.

(** ** The counts add up *)

Lemma incr_sum (k : string) (t : list (string * nat)) :
  list_sum (map snd (incr k t)) = S (list_sum (map snd t)).
Proof.
  induction t as [|[k' n] t IH]; simpl; [reflexivity|].
  destruct (k =? k'); simpl; [reflexivity | rewrite IH; lia].
Qed.

Lemma tally_sum (s : Series (option string)) (t : list (string * nat)) :
  list_sum (map snd (fold_left tally s t))
  = (list_sum (map snd t) + List.length (dropna s))%nat.
Proof.
  revert t. induction s as [|[k|] s IH]; intros t; simpl.
  - lia.
  - rewrite IH, incr_sum. lia.
  - apply IH.
Qed.

Lemma list_sum_perm (l l' : list nat) :
  Permutation l l' -> list_sum l = list_sum l'.
Proof. induction 1; simpl; lia. Qed.

Lemma list_sum_firstn (n : nat) (l : list nat) :
  (list_sum (firstn n l) <= list_sum l)%nat.
Proof.
  revert n. induction l as [|x l IH]; intros [|n]; simpl; try lia.
  specialize (IH n). lia.
Qed.

Section CountTotals.

Variable argsort : forall A : Type, (A -> Q) -> list A -> list A.

Hypothesis argsort_perm :
  forall (A : Type) (key : A -> Q) (l : list A), Permutation (argsort A key l) l.

(** X10.  The counts of the listed authors never add up to more than
    the number of rows that name an author, rows without one being left
    out of the count; when the view has at most ten different authors
    all of them are listed and the counts add up to exactly that number. *)
Theorem author_counts_total (fv : DataFrame) (out : list (string * nat)) :
  top_value_counts argsort fv "Author" 10 = Ok out ->
  (list_sum (map snd out) <= List.length (dropna (map Author (rows fv))))%nat
  /\ ((List.length (unique (dropna (map Author (rows fv)))) <= 10)%nat ->
      list_sum (map snd out) = List.length (dropna (map Author (rows fv)))
      /\ forall a, In (Some a) (map Author (rows fv)) -> In a (map fst out)).
Proof.
  unfold top_value_counts, getitem_str, getitem. intros H.
  destruct (has_column fv "Author"); [|discriminate].
  cbn [str_field String.eqb Ascii.eqb Bool.eqb bind] in H.
  set (s := map Author (rows fv)) in *.
  assert (Hout : out = firstn 10 (value_counts argsort s)) by (unfold head in H; congruence).
  clear H.
  pose proof (sort_values_desc_perm argsort argsort_perm count_key (count_table s)) as Hperm.
  fold (value_counts argsort s) in Hperm.
  destruct (count_table_spec s) as [Hnd [Hkeys _]].
  assert (Htotal : list_sum (map snd (value_counts argsort s)) = List.length (dropna s)).
  { rewrite (list_sum_perm _ _ (Permutation_map snd Hperm)).
    unfold count_table. rewrite tally_sum. reflexivity. }
  split.
  - rewrite Hout, <- Htotal, <- firstn_map. apply list_sum_firstn.
  - intros Hfew.
    assert (Hlen : List.length (count_table s) = List.length (unique (dropna s))).
    { rewrite <- (length_map fst (count_table s)). apply Permutation_length.
      apply NoDup_Permutation; [exact Hnd | apply unique_NoDup|].
      intros k. rewrite Hkeys, unique_In, dropna_In. reflexivity. }
    assert (Hall : out = value_counts argsort s).
    { rewrite Hout. apply firstn_all2.
      rewrite (Permutation_length Hperm), Hlen. exact Hfew. }
    rewrite Hall. split; [exact Htotal|].
    intros a Ha. apply Hkeys in Ha.
    apply (Permutation_in _ (Permutation_sym (Permutation_map fst Hperm))). exact Ha.
Qed.

End CountTotals.

Lemma author_counts_total_witness :
  (list_sum (map snd [("A", 3%nat); ("B", 1%nat); ("C", 1%nat)])
   <= List.length (dropna (map Author (rows gappy_books))))%nat
  /\ List.length (rows gappy_books) = 6%nat.
Proof.
  split; [|reflexivity].
  apply (author_counts_total stable_argsort stable_argsort_perm gappy_books
           [("A", 3%nat); ("B", 1%nat); ("C", 1%nat)] eq_refl).
Defined.

(** ** When the notice is shown *)

(** X11.  With their columns in place, the price tab and both halves of
    the authors tab show the "no data" notice exactly when the view has
    no row, and a table of results exactly when it has one. *)
Theorem notice_iff_empty (argsort : forall A : Type, (A -> Q) -> list A -> list A)
    (fv : DataFrame) :
  has_column fv "Type" = true -> has_column fv "Price" = true ->
  has_column fv "Author" = true -> has_column fv "Main Genre" = true ->
  has_column fv "Rating" = true ->
  exists price authors,
    tab_price argsort fv = Ok price
    /\ tab_authors argsort fv = Ok authors
    /\ (In (info no_data) price <-> empty fv = true)
    /\ (In (info no_data) authors <-> empty fv = true)
    /\ ((exists t, In (dataframe_means t) price) <-> empty fv = false)
    /\ ((exists t, In (dataframe_counts "Book_Count" t) authors) <-> empty fv = false).
Proof.
  intros HT HP HA HG HR.
  unfold tab_price, tab_authors, tab_authors_top, tab_authors_genre,
    mean_by_group, groupby_mean, top_value_counts, getitem_str, getitem_float.
  rewrite (getitem_ok float_field fv "Price" Price HP eq_refl).
  rewrite (getitem_ok str_field fv "Type" Type_ HT eq_refl).
  rewrite (getitem_ok str_field fv "Author" Author HA eq_refl).
  rewrite (getitem_ok str_field fv "Main Genre" Main_Genre HG eq_refl).
  rewrite (getitem_ok float_field fv "Rating" Rating HR eq_refl).
  cbn [bind]. destruct (empty fv); cbn [negb bind app].
  - eexists. eexists. split; [reflexivity|]. split; [reflexivity|].
    split; [|split; [|split]].
    + split; [reflexivity | intros _; simpl; tauto].
    + split; [reflexivity | intros _; simpl; tauto].
    + split; [|discriminate]. intros [t Hin]. exfalso. simpl in Hin.
      repeat (destruct Hin as [Hin | Hin]; [discriminate|]). exact Hin.
    + split; [|discriminate]. intros [t Hin]. exfalso. simpl in Hin.
      repeat (destruct Hin as [Hin | Hin]; [discriminate|]). exact Hin.
  - eexists. eexists. split; [reflexivity|]. split; [reflexivity|].
    split; [|split; [|split]].
    + split; [|discriminate]. intros Hin. exfalso. simpl in Hin.
      repeat (destruct Hin as [Hin | Hin]; [discriminate|]). exact Hin.
    + split; [|discriminate]. intros Hin. exfalso. simpl in Hin.
      repeat (destruct Hin as [Hin | Hin]; [discriminate|]). exact Hin.
    + split; [reflexivity|]. intros _. eexists. simpl. do 6 right. left. reflexivity.
    + split; [reflexivity|]. intros _. eexists. simpl. do 3 right. left. reflexivity.
Qed.

Lemma notice_iff_empty_witness :
  exists price authors,
    tab_price stable_argsort five_books = Ok price
    /\ tab_authors stable_argsort five_books = Ok authors
    /\ ~ In (info no_data) price /\ ~ In (info no_data) authors.
Proof.
  destruct (notice_iff_empty stable_argsort five_books eq_refl eq_refl eq_refl eq_refl
              eq_refl)
    as (price & authors & H1 & H2 & H3 & H4 & _).
  exists price, authors. split; [exact H1|]. split; [exact H2|].
  split; intros Hin; [apply H3 in Hin | apply H4 in Hin]; discriminate.
Defined.

(** ** Columns without spread *)

Lemma sum_sq_dev_constant (vs : list Q) (c : Q) :
  (forall x, In x vs -> x == c) -> sum_sq_dev vs (Qsum vs / Qlen vs) == 0.
Proof.
  intros Hall. destruct vs as [|v vs]; [reflexivity|].
  assert (Hb : forall x, In x (v :: vs) -> c <= x /\ x <= c).
  { intros x Hx. pose proof (Hall x Hx) as E. split; lra. }
  destruct (Qsum_between (v :: vs) c c 0 Hb) as [S1 S2].
  fold (Qsum (v :: vs)) in S1, S2.
  pose proof (Qlen_cons v vs) as EL. pose proof (Qlen_nonneg vs) as N.
  assert (Hpos : 0 < Qlen (v :: vs)) by lra.
  assert (Hm : Qsum (v :: vs) / Qlen (v :: vs) == c).
  { assert (E : Qsum (v :: vs) == Qlen (v :: vs) * c) by lra.
    rewrite E. field. lra. }
  set (m := Qsum (v :: vs) / Qlen (v :: vs)) in *.
  assert (Hz : forall y, In y (map (fun x => (x - m) * (x - m)) (v :: vs)) ->
                         0 <= y /\ y <= 0).
  { intros y Hy. apply in_map_iff in Hy as [x [<- Hx]].
    pose proof (Hall x Hx) as E.
    assert (Ez : (x - m) * (x - m) == 0) by (rewrite E, Hm; ring).
    split; lra. }
  destruct (Qsum_between _ 0 0 0 Hz) as [Z1 Z2].
  unfold sum_sq_dev, Qsum. lra.
Qed.

Section CorrelationMatrix.

Variable sqrt : Q -> Q.

Hypothesis sqrt_sqr : forall x, 0 <= x -> sqrt (x * x) == x.


End CorrelationMatrix.


Section PinnedRating.

Variable sqrt : Q -> Q.

Hypothesis sqrt_sqr : forall x, 0 <= x -> sqrt (x * x) == x.

(** X13.  When the rating range is pinned to a single value, the entry
    of the correlation matrix that pairs Rating with itself is NaN. *)
Theorem pinned_rating_no_correlation (df fv : DataFrame) (st sg : list string)
    (r0 : Q) (eo : bool) (i : nat) :
  apply_filters df st sg (r0, r0) eo = Ok fv ->
  nth_error (existing_numeric fv) i = Some "Rating" ->
  exists m,
    corr sqrt fv (existing_numeric fv) = Ok m /\ entry m i i = None.
Proof.
  intros Hfv Hi.
  pose proof (apply_filters_requires _ _ _ _ _ _ Hfv) as Hreq.
  rewrite (apply_filters_eq df st sg (r0, r0) eo Hreq) in Hfv.
  assert (Hrows : rows fv = filter (spec_keep (has_column df "Price_outlier")
                                      st sg (r0, r0) eo) (rows df))
    by (injection Hfv as <-; reflexivity).
  assert (Hconst : forall x, In x (dropna (float_column fv "Rating")) -> x == r0).
  { intros x Hx. apply dropna_In in Hx.
    unfold float_column in Hx. cbn [float_field String.eqb Ascii.eqb Bool.eqb] in Hx.
    apply in_map_iff in Hx as [b [Eb Hb]].
    rewrite Hrows in Hb. apply filter_In in Hb as [_ Hk].
    apply spec_keep_iff in Hk. destruct Hk as [_ [_ [[r [Er [H1 H2]]] _]]].
    cbn [fst snd] in H1, H2. rewrite Er in Eb. injection Eb as <-. lra. }
  eexists. split; [apply corr_existing|]. cbv zeta.
  rewrite (entry_corr sqrt (map (float_column fv) (existing_numeric fv))
             (existing_numeric fv)). cbv zeta.
  assert (Li : (i <? List.length (existing_numeric fv))%nat = true).
  { apply Nat.ltb_lt. apply nth_error_Some. congruence. }
  rewrite Li. cbn [andb]. unfold corr_entry. rewrite Nat.leb_refl.
  rewrite (nth_map_nth_error (float_column fv) _ i "Rating" [] Hi).
  apply (pearson_diagonal sqrt sqrt_sqr).
  apply (sum_sq_dev_constant _ r0 Hconst).
Qed.

End PinnedRating.

Lemma pinned_rating_no_correlation_witness :
  exists m,
    corr Qsqrt
      {| columns := columns gappy_books;
         rows := filter (spec_keep true ["Fiction"] ["Novel"] (5, 5) false)
                   (rows gappy_books) |}
      ["Price"; "Rating"; "No. of People rated"] = Ok m
    /\ entry m 1 1 = None.
Proof.
  apply (pinned_rating_no_correlation Qsqrt Qsqrt_sqr gappy_books
           {| columns := columns gappy_books;
              rows := filter (spec_keep true ["Fiction"] ["Novel"] (5, 5) false)
                        (rows gappy_books) |}
           ["Fiction"] ["Novel"] 5 false 1); reflexivity.
Defined.

(** ** The notice that is never shown *)

Ltac no_such_element H :=
  simpl in H; unfold no_data, not_enough_columns in H;
  repeat (destruct H as [H | H]; [discriminate|]); exact H.

Lemma tab_overview_notice (argsort : forall A : Type, (A -> Q) -> list A -> list A)
    (sqrt : Q -> Q) (fv : DataFrame) (out : list element) :
  tab_overview argsort sqrt fv = Ok out -> ~ In (info not_enough_columns) out.
Proof.
  unfold tab_overview. intros H Hin.
  apply bind_ok in H as [price [_ H]].
  assert (E : out = [ subheader "Dataset Overview";
                      write_shape (List.length (rows fv), List.length (columns fv));
                      write_columns (columns fv);
                      write "**Sample rows:**";
                      dataframe_rows (head 10 (rows fv));
                      markdown "---";
                      subheader "Price – Summary Statistics";
                      write_describe (describe argsort sqrt price) ])
    by (cbn [app] in H; congruence).
  subst out. no_such_element Hin.
Qed.

Lemma tab_price_notice (argsort : forall A : Type, (A -> Q) -> list A -> list A)
    (fv : DataFrame) (out : list element) :
  tab_price argsort fv = Ok out -> ~ In (info not_enough_columns) out.
Proof.
  unfold tab_price. intros H Hin.
  apply bind_ok in H as [price [_ H]].
  destruct (negb (empty fv)).
  - apply bind_ok in H as [means [_ H]]. cbn [app] in H.
    assert (E : out = [ subheader "💰 Price Distribution "; pyplot (histplot price 30);
                        markdown "---"; subheader "Average Price by Type ";
                        pyplot (barplot_means means);
                        write "**Average price by Type (table):**";
                        dataframe_means means ]) by congruence.
    subst out. no_such_element Hin.
  - cbn [app] in H.
    assert (E : out = [ subheader "💰 Price Distribution "; pyplot (histplot price 30);
                        markdown "---"; subheader "Average Price by Type ";
                        info no_data ]) by congruence.
    subst out. no_such_element Hin.
Qed.

Lemma tab_rating_notice (fv : DataFrame) (out : list element) :
  tab_rating fv = Ok out -> ~ In (info not_enough_columns) out.
Proof.
  unfold tab_rating. intros H Hin.
  apply bind_ok in H as [rating [_ H]]. apply bind_ok in H as [x [_ H]].
  apply bind_ok in H as [y [_ H]]. apply bind_ok in H as [people [_ H]].
  apply bind_ok in H as [price [_ H]].
  assert (E : out = [ subheader "⭐ Rating Distribution"; pyplot (histplot rating 20);
                      markdown "---"; subheader "Price vs Rating ";
                      pyplot (scatterplot x y); markdown "---";
                      subheader "Price vs Number of People Rated";
                      pyplot (scatterplot people price) ]) by congruence.
  subst out. no_such_element Hin.
Qed.

Lemma tab_authors_notice (argsort : forall A : Type, (A -> Q) -> list A -> list A)
    (fv : DataFrame) (out : list element) :
  tab_authors argsort fv = Ok out -> ~ In (info not_enough_columns) out.
Proof.
  unfold tab_authors, tab_authors_top, tab_authors_genre. intros H Hin.
  apply bind_ok in H as [top [Htop H]]. apply bind_ok in H as [genre [Hgenre H]].
  assert (E : out = top ++ genre) by congruence. subst out. clear H.
  apply in_app_or in Hin.
  destruct (negb (empty fv)).
  - apply bind_ok in Htop as [counts [_ Htop]].
    apply bind_ok in Hgenre as [means [_ Hgenre]].
    cbn [app] in Htop, Hgenre.
    assert (Et : top = [ subheader "👤 Top Authors (by number of books in filtered data)";
                         pyplot (barplot_counts counts);
                         write "**Top 10 authors (table):**";
                         dataframe_counts "Book_Count" counts ]) by congruence.
    assert (Eg : genre = [ markdown "---"; subheader "Average Rating by Main Genre";
                           pyplot (barplot_means means);
                           write "**Average Rating by Main Genre (table):**";
                           dataframe_means means ]) by congruence.
    subst top genre. destruct Hin as [Hin | Hin]; no_such_element Hin.
  - cbn [app] in Htop, Hgenre.
    assert (Et : top = [ subheader "👤 Top Authors (by number of books in filtered data)";
                         info no_data ]) by congruence.
    assert (Eg : genre = [ markdown "---"; subheader "Average Rating by Main Genre";
                           info no_data ]) by congruence.
    subst top genre. destruct Hin as [Hin | Hin]; no_such_element Hin.
Qed.

(** X14.  Whenever the script runs to its end, it does not show the
    "not enough numeric columns" notice: Price and Rating have been read
    before the correlation tab is reached, so the tab always finds two
    numeric columns and draws the matrix. *)
Theorem not_enough_columns_never_shown
    (argsort : forall A : Type, (A -> Q) -> list A -> list A) (sqrt : Q -> Q)
    (df : DataFrame) (st sg : list string) (rr : Q * Q) (checkbox : bool)
    (out : list element) :
  script argsort sqrt df st sg rr checkbox = Ok out ->
  ~ In (info not_enough_columns) out
  /\ exists m, In (dataframe_corr m) out.
Proof.
  unfold script. intros H.
  apply bind_ok in H as [types [_ H]]. apply bind_ok in H as [genres [_ H]].
  apply bind_ok in H as [bounds [_ H]].
  destruct (correlation_tab_reached argsort sqrt df st sg rr checkbox out H)
    as [fv [Hfv Hk]].
  unfold dashboard in H. rewrite Hfv in H. cbn [bind] in H.
  apply bind_ok in H as [ov [Hov H]]. apply bind_ok in H as [pr [Hpr H]].
  apply bind_ok in H as [ra [Hra H]]. apply bind_ok in H as [au [Hau H]].
  apply bind_ok in H as [co [Hco H]].
  assert (E : out = ov ++ pr ++ ra ++ au ++ co) by congruence. subst out. clear H.
  unfold tab_corr in Hco. apply Nat.leb_le in Hk. rewrite Hk in Hco.
  apply bind_ok in Hco as [m [_ Hco]]. cbn [app] in Hco.
  assert (Ec : co = [ subheader "📈 Correlation Heatmap (Numeric Features)";
                      pyplot (heatmap m);
                      write "**Correlation Matrix (table):**";
                      dataframe_corr m ]) by congruence.
  split.
  - intros Hin.
    apply in_app_or in Hin as [Hin | Hin];
      [exact (tab_overview_notice argsort sqrt fv ov Hov Hin)|].
    apply in_app_or in Hin as [Hin | Hin];
      [exact (tab_price_notice argsort fv pr Hpr Hin)|].
    apply in_app_or in Hin as [Hin | Hin];
      [exact (tab_rating_notice fv ra Hra Hin)|].
    apply in_app_or in Hin as [Hin | Hin];
      [exact (tab_authors_notice argsort fv au Hau Hin)|].
    subst co. no_such_element Hin.
  - exists m. repeat (apply in_or_app; right). subst co.
    simpl. do 3 right. left. reflexivity.
Qed.

Lemma not_enough_columns_never_shown_witness :
  exists out,
    script stable_argsort Qsqrt five_books ["Fiction"] ["Novel"; "Poetry"] (4, 5) false
    = Ok out
    /\ ~ In (info not_enough_columns) out.
Proof.
  destruct (script stable_argsort Qsqrt five_books ["Fiction"] ["Novel"; "Poetry"]
              (4, 5) false) as [out | label | name |] eqn:E.
  - exists out. split; [reflexivity|].
    apply (not_enough_columns_never_shown stable_argsort Qsqrt five_books
             ["Fiction"] ["Novel"; "Poetry"] (4, 5) false out E).
  - vm_compute in E. discriminate.
  - vm_compute in E. discriminate.
  - vm_compute in E. discriminate.
Defined.
